(** * Auto_Log_Extractor: a shallow embedding of [app.py]

    The development follows the layout of the program: text and codecs,
    the encoding-resilient reader, the regular expressions of the
    extractors, Python values and dictionaries, data frames and workbooks,
    and then the four batch drivers [process_html_files],
    [process_log_files], [process_link_files] and
    [process_equipment_files].  Sample inputs and the properties come
    last.

    Conventions.
    - A Python [str] is a list of Unicode code points ([N]); [bytes] is a
      list of [Byte.byte].
    - Temporary storage is a finite map from paths to file contents.
    - Python exceptions are values of [exn]; a computation that may raise
      returns a [result], and a driver returns the state it leaves behind
      together with its [outcome].
    - The three codecs, universal newlines, string methods and the
      patterns are written out in full.  [\d] and [\w] are taken on the
      ASCII range.
    - [json.loads], [str()] on nested values and the locale's preferred
      encoding belong to the Python runtime; they are section variables of
      the JSON-line extractors.
    - pandas and openpyxl calls are modelled by what they do to the table:
      [DataFrame] builds a table, [sort_values] sorts its rows, [df[names]]
      selects columns (or raises [KeyError]), [ws.append] adds a row; every
      cell value is taken to be one the workbook accepts.  Column widths,
      fills and filters do not change cell values and are left out. *)

From Stdlib Require Import ZArith NArith List Strings.String Strings.Ascii.
From Stdlib Require Import Strings.Byte DecimalString Floats.PrimFloat Lia.
From stdpp Require Import gmap list sorting lexico.
Import ListNotations.

Set Default Proof Using "Type".

(** ** Text *)

(** A Python string: a sequence of code points. *)
Abbreviation str := (list N).

(** Literals are written as Rocq strings and read as code points. *)
Definition txt (s : string) : str := N_of_ascii <$> list_ascii_of_string s.

(** The double quote, U+0022. *)
Definition dquote : str := [34%N].

Definition in_range (lo hi c : N) : bool := ((lo <=? c) && (c <=? hi))%N.

(** [\d], [\w] on the ASCII range; [\s] is [str.isspace] in full. *)
Definition is_digit (c : N) : bool := in_range 48 57 c.

Definition is_word (c : N) : bool :=
  is_digit c || in_range 65 90 c || in_range 97 122 c || (c =? 95)%N.

Definition is_space (c : N) : bool :=
  in_range 9 13 c || in_range 28 32 c || (c =? 133)%N || (c =? 160)%N
  || (c =? 5760)%N || in_range 8192 8202 c || in_range 8232 8233 c
  || (c =? 8239)%N || (c =? 8287)%N || (c =? 12288)%N.

(** Python compares strings code point by code point: [s1 <= s2]. *)
Fixpoint str_leb (s1 s2 : str) : bool :=
  match s1, s2 with
  | [], _ => true
  | _ :: _, [] => false
  | c1 :: r1, c2 :: r2 =>
      if (c1 <? c2)%N then true
      else if (c2 <? c1)%N then false
      else str_leb r1 r2
  end.

Definition str_le (s1 s2 : str) : Prop := Is_true (str_leb s1 s2).

(** [s.split(sep)] for a one-character separator: never an empty list. *)
Fixpoint split_on (sep : N) (s : str) : list str :=
  match s with
  | [] => [[]]
  | c :: r =>
      if (c =? sep)%N then [] :: split_on sep r
      else match split_on sep r with
           | [] => [[c]]
           | w :: ws => (c :: w) :: ws
           end
  end.

(** The one-character separators the program splits on. *)
Definition ch (s : string) : N :=
  match list_ascii_of_string s with
  | a :: _ => N_of_ascii a
  | [] => 0%N
  end.

(** [l[0]] and [l[-1]] of a list of strings that [split] returned. *)
Definition first_part (l : list str) : str := hd [] l.
Definition last_part (l : list str) : str := List.last l [].

(** [s.strip()]. *)
Fixpoint lstrip (s : str) : str :=
  match s with
  | c :: r => if is_space c then lstrip r else s
  | [] => []
  end.

Definition rstrip (s : str) : str := rev (lstrip (rev s)).
Definition strip (s : str) : str := rstrip (lstrip s).

(** [s.find(c)]: the first index of [c], or [-1]. *)
Fixpoint find_from (c : N) (s : str) (i : Z) : Z :=
  match s with
  | [] => (-1)%Z
  | x :: r => if (x =? c)%N then i else find_from c r (i + 1)%Z
  end.

Definition find (c : N) (s : str) : Z := find_from c s 0.

(** [s[i:]], with Python's reading of a negative index. *)
Definition slice_from (i : Z) (s : str) : str :=
  if (i <? 0)%Z
  then drop (Z.to_nat (Z.max 0 (Z.of_nat (length s) + i))) s
  else drop (Z.to_nat i) s.

(** [os.path.basename]: what follows the last slash. *)
Definition basename (p : str) : str := last_part (split_on (ch "/") p).

(** The text before the first [c]: [s.split(c)[0]]. *)
Fixpoint truncate_at (c : N) (s : str) : str :=
  match s with
  | [] => []
  | x :: r => if (x =? c)%N then [] else x :: truncate_at c r
  end.

(** The lines of a text file as iteration yields them: each keeps its
    newline. *)
Fixpoint lines_from (cur : str) (s : str) : list str :=
  match s with
  | [] => match cur with [] => [] | _ => [rev cur] end
  | c :: r =>
      if (c =? 10)%N then rev (c :: cur) :: lines_from [] r
      else lines_from (c :: cur) r
  end.

Definition file_lines (s : str) : list str := lines_from [] s.

(** ** Exceptions *)

Inductive exn : Set :=
| FileNotFoundError
| UnicodeDecodeError
| TypeError
| ValueError
| AttributeError
| KeyError.

Inductive result (A : Type) : Type :=
| Ok (a : A)
| Raise (e : exn).
Arguments Ok {A} a.
Arguments Raise {A} e.

(** Sequencing: the first exception ends the computation. *)
Definition bind {A B : Type} (m : result A) (f : A -> result B) : result B :=
  match m with
  | Ok a => f a
  | Raise e => Raise e
  end.

Notation "'let!' x ':=' m 'in' k" := (bind m (fun x => k))
  (at level 10, x name, m at level 100, k at level 200,
   format "'[v' 'let!'  x  ':='  m  'in' '/' k ']'").

(** [for x in l: acc = f(acc, x)], stopping at the first exception. *)
Fixpoint for_each {A S : Type} (f : S -> A -> result S) (l : list A) (s : S)
  : result S :=
  match l with
  | [] => Ok s
  | x :: r => let! s' := f s x in for_each f r s'
  end.

(** ** Codecs *)

Inductive encoding : Set := Utf8 | Latin1 | Cp1252.

Definition is_cont (b : N) : bool := in_range 128 191 b.

Definition low6 (b : N) : N := N.land b 63.

(** Strict UTF-8: shortest form only, no surrogates, at most U+10FFFF. *)
Fixpoint utf8_decode (bs : list N) : option str :=
  match bs with
  | [] => Some []
  | b0 :: r0 =>
      if (b0 <? 128)%N then cons b0 <$> utf8_decode r0
      else if in_range 194 223 b0 then
        match r0 with
        | b1 :: r1 =>
            if is_cont b1
            then cons (N.lor (N.shiftl (N.land b0 31) 6) (low6 b1))
                   <$> utf8_decode r1
            else None
        | _ => None
        end
      else if in_range 224 239 b0 then
        match r0 with
        | b1 :: b2 :: r2 =>
            let lo := if (b0 =? 224)%N then 160%N else 128%N in
            let hi := if (b0 =? 237)%N then 159%N else 191%N in
            if in_range lo hi b1 && is_cont b2
            then cons (N.lor (N.shiftl (N.land b0 15) 12)
                         (N.lor (N.shiftl (low6 b1) 6) (low6 b2)))
                   <$> utf8_decode r2
            else None
        | _ => None
        end
      else if in_range 240 244 b0 then
        match r0 with
        | b1 :: b2 :: b3 :: r3 =>
            let lo := if (b0 =? 240)%N then 144%N else 128%N in
            let hi := if (b0 =? 244)%N then 143%N else 191%N in
            if in_range lo hi b1 && is_cont b2 && is_cont b3
            then cons (N.lor (N.shiftl (N.land b0 7) 18)
                         (N.lor (N.shiftl (low6 b1) 12)
                            (N.lor (N.shiftl (low6 b2) 6) (low6 b3))))
                   <$> utf8_decode r3
            else None
        | _ => None
        end
      else None
  end.

(** Windows-1252 as Python decodes it: five bytes are undefined. *)
Definition cp1252_high : list (option N) :=
  [Some 8364; None; Some 8218; Some 402; Some 8222; Some 8230; Some 8224;
   Some 8225; Some 710; Some 8240; Some 352; Some 8249; Some 338; None;
   Some 381; None; None; Some 8216; Some 8217; Some 8220; Some 8221;
   Some 8226; Some 8211; Some 8212; Some 732; Some 8482; Some 353;
   Some 8250; Some 339; None; Some 382; Some 376]%N.

Definition cp1252_char (b : N) : option N :=
  if in_range 128 159 b
  then mjoin (cp1252_high !! N.to_nat (b - 128))
  else Some b.

Definition decode (e : encoding) (bs : list byte) : option str :=
  match e with
  | Utf8 => utf8_decode (Byte.to_N <$> bs)
  | Latin1 => Some (Byte.to_N <$> bs)
  | Cp1252 => mapM cp1252_char (Byte.to_N <$> bs)
  end.

(** Text mode reads with universal newlines: [\r\n] and [\r] become [\n]. *)
Fixpoint universal_newlines (s : str) : str :=
  match s with
  | [] => []
  | c :: r =>
      if (c =? 13)%N then
        match r with
        | d :: r' =>
            if (d =? 10)%N then 10%N :: universal_newlines r'
            else 10%N :: universal_newlines r
        | [] => [10%N]
        end
      else c :: universal_newlines r
  end.

(** ** Storage and the encoding-resilient reader *)

Abbreviation storage := (gmap str (list byte)).

(** [open(path, 'r', encoding=e).read()]. *)
Definition open_read (fs : storage) (file_path : str) (e : encoding)
  : result str :=
  match fs !! file_path with
  | None => Raise FileNotFoundError
  | Some bs =>
      match decode e bs with
      | None => Raise UnicodeDecodeError
      | Some t => Ok (universal_newlines t)
      end
  end.

Definition default_encodings : list encoding := [Utf8; Latin1; Cp1252].

(** Only [UnicodeDecodeError] moves on to the next encoding.  The final
    [raise UnicodeDecodeError(msg)] passes one argument to a constructor
    that takes five, so what Python raises there is a [TypeError]. *)
Fixpoint read_file_with_multiple_encodings (fs : storage) (file_path : str)
    (encodings : list encoding) : result str :=
  match encodings with
  | [] => Raise TypeError
  | encoding :: rest =>
      match open_read fs file_path encoding with
      | Ok content => Ok content
      | Raise UnicodeDecodeError =>
          read_file_with_multiple_encodings fs file_path rest
      | Raise e => Raise e
      end
  end.

(** ** Regular expressions

    The fragment of Python's [re] that the program's patterns use, matched
    the way [re] matches: leftmost, greedy, backtracking. *)

Module Re.

(** Character classes. *)
Inductive cls : Set :=
| Digit                 (* \d *)
| Word                  (* \w *)
| Space                 (* \s *)
| NotSpace              (* \S *)
| Dot                   (* .  : anything but a newline *)
| NoneOf (l : list N)   (* [^...] *)
| Char (c : N).         (* one literal character, for c* and c+ *)

Definition cls_test (k : cls) (c : N) : bool :=
  match k with
  | Digit => is_digit c
  | Word => is_word c
  | Space => is_space c
  | NotSpace => negb (is_space c)
  | Dot => negb (c =? 10)%N
  | NoneOf l => negb (existsb (N.eqb c) l)
  | Char x => (c =? x)%N
  end.

Inductive re : Type :=
| Lit (s : str)                                 (* literal text *)
| Rep (k : cls) (lo : nat) (hi : option nat)    (* k{lo,hi}, greedy *)
| Seq (r1 r2 : re)
| Alt (r1 r2 : re)                              (* r1|r2 *)
| Group (n : nat) (r : re)                      (* the n-th ( ) *)
| Opt (r : re).                                 (* (?:r)?, greedy *)

Definition star (k : cls) : re := Rep k 0 None.
Definition plus (k : cls) : re := Rep k 1 None.
Definition times (n : nat) (k : cls) : re := Rep k n (Some n).
Definition cat (rs : list re) : re := foldr Seq (Lit []) rs.

(** Groups that took part in the match, most recent binding first. *)
Abbreviation captures := (list (nat * str)).

Fixpoint lookup_group (n : nat) (g : captures) : option str :=
  match g with
  | [] => None
  | (m, s) :: g' => if (m =? n)%nat then Some s else lookup_group n g'
  end.

Section Matcher.
Context {R : Type}.

Fixpoint lit (p s : str) (k : str -> option R) : option R :=
  match p with
  | [] => k s
  | c :: p' =>
      match s with
      | x :: s' => if (x =? c)%N then lit p' s' k else None
      | [] => None
      end
  end.

Definition may_take (hi : option nat) : bool :=
  match hi with Some O => false | _ => true end.

(** Greedy repetition: take as many as allowed, give back one at a
    time while the rest of the pattern fails. *)
Fixpoint rep (c : cls) (lo : nat) (hi : option nat) (s : str)
    (k : str -> option R) : option R :=
  let stop := match lo with O => k s | S _ => None end in
  match s with
  | x :: s' =>
      if cls_test c x && may_take hi then
        match rep c (pred lo) (pred <$> hi) s' k with
        | Some r => Some r
        | None => stop
        end
      else stop
  | [] => stop
  end.

Fixpoint run (r : re) (s : str) (g : captures)
    (k : str -> captures -> option R) : option R :=
  match r with
  | Lit p => lit p s (fun s' => k s' g)
  | Rep c lo hi => rep c lo hi s (fun s' => k s' g)
  | Seq r1 r2 => run r1 s g (fun s' g' => run r2 s' g' k)
  | Alt r1 r2 =>
      match run r1 s g k with
      | Some x => Some x
      | None => run r2 s g k
      end
  | Group n r1 =>
      run r1 s g
        (fun s' g' => k s' ((n, take (length s - length s') s) :: g'))
  | Opt r1 =>
      match run r1 s g k with
      | Some x => Some x
      | None => k s g
      end
  end.
End Matcher.

(** [re.match]: the groups and what follows the match. *)
Definition match_ (r : re) (s : str) : option (captures * str) :=
  run r s [] (fun rest g => Some (g, rest)).

(** [re.search]: the leftmost position with a match. *)
Fixpoint search (r : re) (s : str) : option (captures * str) :=
  match match_ r s with
  | Some m => Some m
  | None =>
      match s with
      | [] => None
      | _ :: s' => search r s'
      end
  end.

(** [m.group(n)]; a group that did not take part reads as empty, as
    [findall] reports it. *)
Definition group (n : nat) (g : captures) : str :=
  default [] (lookup_group n g).

Definition groups (count : nat) (g : captures) : list str :=
  (fun n => group n g) <$> seq 1 count.

(** [re.findall] for a pattern with [count] groups: the matches from
    left to right, none overlapping.  [skip] counts the characters of
    the last match still to step over. *)
Fixpoint findall_from (r : re) (count : nat) (s : str) (skip : nat)
  : list (list str) :=
  match s with
  | [] =>
      match skip, match_ r [] with
      | O, Some (g, _) => [groups count g]
      | _, _ => []
      end
  | _ :: s' =>
      match skip with
      | S n => findall_from r count s' n
      | O =>
          match match_ r s with
          | Some (g, rest) =>
              groups count g
                :: findall_from r count s' (length s - length rest - 1)
          | None => findall_from r count s' 0
          end
      end
  end.

Definition findall (r : re) (count : nat) (s : str) : list (list str) :=
  findall_from r count s 0.



(** What follows [p] at the start of [s], when [s] starts with [p]. *)
Fixpoint after_prefix (p s : str) : option str :=
  match p with
  | [] => Some s
  | c :: p' =>
      match s with
      | x :: s' => if (x =? c)%N then after_prefix p' s' else None
      | [] => None
      end
  end.

End Re.

(** ** The program's patterns *)

(** [IP=(\d+\.\d+\.\d+\.\d+)] *)
Definition ip_pattern : Re.re :=
  Re.Seq (Re.Lit (txt "IP="))
    (Re.Group 1
       (Re.cat [Re.plus Re.Digit; Re.Lit (txt "."); Re.plus Re.Digit;
                Re.Lit (txt "."); Re.plus Re.Digit; Re.Lit (txt ".");
                Re.plus Re.Digit])).

(** [System Name:\s*] followed by one group, [[^\n\r]*]. *)
Definition system_name_pattern : Re.re :=
  Re.cat [Re.Lit (txt "System Name:"); Re.star Re.Space;
          Re.Group 1 (Re.star (Re.NoneOf [10; 13]%N))].

(** The event row of the HTML export:
    [<tr><td>(\d+): <font color="#(?:3366FF|606060|009900)">]
    [(\d{2}\.\d{2}\.\d{2})\s*(\d{2}:\d{2}:\d{2}):\s*(\S+)\s*(\S+)\s*(\S+)]
    [\s*,\s*(\S+)\s*,\s*(\d+)<br>\s*\.+(\S+)] *)
Definition html_pattern1 : Re.re :=
  let d2 := Re.times 2 Re.Digit in
  let ws := Re.star Re.Space in
  let nonspace := Re.plus Re.NotSpace in
  Re.cat
    [Re.Lit (txt "<tr><td>"); Re.Group 1 (Re.plus Re.Digit);
     Re.Lit (txt ": <font color=" ++ dquote ++ txt "#");
     Re.Alt (Re.Lit (txt "3366FF"))
       (Re.Alt (Re.Lit (txt "606060")) (Re.Lit (txt "009900")));
     Re.Lit (dquote ++ txt ">");
     Re.Group 2 (Re.cat [d2; Re.Lit (txt "."); d2; Re.Lit (txt "."); d2]);
     ws;
     Re.Group 3 (Re.cat [d2; Re.Lit (txt ":"); d2; Re.Lit (txt ":"); d2]);
     Re.Lit (txt ":"); ws;
     Re.Group 4 nonspace; ws; Re.Group 5 nonspace; ws; Re.Group 6 nonspace;
     ws; Re.Lit (txt ","); ws; Re.Group 7 nonspace; ws; Re.Lit (txt ",");
     ws; Re.Group 8 (Re.plus Re.Digit); Re.Lit (txt "<br>"); ws;
     Re.plus (Re.Char (ch ".")); Re.Group 9 nonspace].

(** The syslog line, up to the colon and space that close the mnemonic:
    [\**(\w{2,3})\s+(\d{1,2}) (...): %(\S+)-(\d)-(\w+): ], where the third
    group is [\d{2}:\d{2}:\d{2}\.\d{3}\s*\S*]. *)
Definition log_event_head : list Re.re :=
  let d2 := Re.times 2 Re.Digit in
  [Re.star (Re.Char (ch "*")); Re.Group 1 (Re.Rep Re.Word 2 (Some 3));
   Re.plus Re.Space; Re.Group 2 (Re.Rep Re.Digit 1 (Some 2));
   Re.Lit (txt " ");
   Re.Group 3
     (Re.cat [d2; Re.Lit (txt ":"); d2; Re.Lit (txt ":"); d2;
              Re.Lit (txt "."); Re.times 3 Re.Digit; Re.star Re.Space;
              Re.star Re.NotSpace]);
   Re.Lit (txt ": %"); Re.Group 4 (Re.plus Re.NotSpace);
   Re.Lit (txt "-"); Re.Group 5 (Re.times 1 Re.Digit); Re.Lit (txt "-");
   Re.Group 6 (Re.plus Re.Word); Re.Lit (txt ": ")].

(** The optional traceback, [\s*-Traceback=(.+)]. *)
Definition log_traceback : Re.re :=
  Re.cat [Re.star Re.Space; Re.Lit (txt "-Traceback="); Re.Group 8 (Re.plus Re.Dot)].

(** The message and what may follow it: [(.+)\s*(?:\s*-Traceback=(.+))?]. *)
Definition log_message_tail : list Re.re :=
  [Re.Group 7 (Re.plus Re.Dot); Re.star Re.Space; Re.Opt log_traceback].

(** The whole pattern of [process_log_files]. *)
Definition log_pattern1 : Re.re :=
  Re.cat (log_event_head ++ log_message_tail).

(** [\{.*\}] *)
Definition json_fragment_pattern : Re.re :=
  Re.cat [Re.Lit (txt "{"); Re.star Re.Dot; Re.Lit (txt "}")].

(** [INFO - (\d{4}-\d{2}-\d{2} \d{2}:\d{2}:\d{2})] *)
Definition info_prefix_pattern : Re.re :=
  let d2 := Re.times 2 Re.Digit in
  Re.Seq (Re.Lit (txt "INFO - "))
    (Re.Group 1
       (Re.cat [Re.times 4 Re.Digit; Re.Lit (txt "-"); d2; Re.Lit (txt "-");
                d2; Re.Lit (txt " "); d2; Re.Lit (txt ":"); d2;
                Re.Lit (txt ":"); d2])).

(** ** Python values and dictionaries *)

(** What [json.loads] returns and what a worksheet cell holds. *)
#[warnings="-register-all"]
Inductive value : Type :=
| VNone
| VBool (b : bool)
| VInt (z : Z)
| VFloat (f : float)
| VStr (s : str)
| VList (l : list value)
| VDict (d : list (str * value)).

(** A [dict] keeps its keys in insertion order. *)
Abbreviation dict := (list (str * value)).

(** [float('nan')]: how pandas fills a cell a record has no key for. *)
Definition NaN : value := VFloat PrimFloat.nan.

Fixpoint dict_get (k : str) (d : dict) : option value :=
  match d with
  | [] => None
  | (k', v) :: r => if decide (k' = k) then Some v else dict_get k r
  end.

(** [k in d]. *)
Definition dict_mem (k : str) (d : dict) : bool :=
  bool_decide (is_Some (dict_get k d)).

(** [d[k] = v]: an existing key keeps its place. *)
Fixpoint dict_set (k : str) (v : value) (d : dict) : dict :=
  match d with
  | [] => [(k, v)]
  | (k', v') :: r =>
      if decide (k' = k) then (k, v) :: r else (k', v') :: dict_set k v r
  end.

Fixpoint dict_del (k : str) (d : dict) : dict :=
  match d with
  | [] => []
  | (k', v') :: r => if decide (k' = k) then r else (k', v') :: dict_del k r
  end.

(** [d.pop(k, default)]: the value and the dictionary left behind. *)
Definition dict_pop (k : str) (default : value) (d : dict) : value * dict :=
  match dict_get k d with
  | Some v => (v, dict_del k d)
  | None => (default, d)
  end.

(** [d.update(other)]. *)
Definition dict_update (d other : dict) : dict :=
  foldl (fun acc kv => dict_set kv.1 kv.2 acc) d other.

(** [if v:]. *)
Definition truthy (v : value) : bool :=
  match v with
  | VNone => false
  | VBool b => b
  | VInt z => negb (z =? 0)%Z
  | VFloat f => negb (PrimFloat.eqb f PrimFloat.zero)
  | VStr s => negb (bool_decide (s = []))
  | VList l => negb (bool_decide (l = []))
  | VDict d => negb (bool_decide (d = []))
  end.

(** [for x in v]: a list yields its elements, a dictionary its keys, a
    string its characters; nothing else can be iterated. *)
Definition iterate (v : value) : result (list value) :=
  match v with
  | VList l => Ok l
  | VDict d => Ok ((fun kv => VStr kv.1) <$> d)
  | VStr s => Ok ((fun c => VStr [c]) <$> s)
  | _ => Raise TypeError
  end.

(** [item.update(data)]: only a dictionary has the method. *)
Definition item_update (item : value) (data : dict) : result dict :=
  match item with
  | VDict d => Ok (dict_update d data)
  | _ => Raise AttributeError
  end.

(** ** Data frames *)

Record frame (A : Type) : Type := Frame {
  columns : list str;
  rows : list (list A)
}.
Arguments Frame {A} columns rows.
Arguments columns {A} f.
Arguments rows {A} f.

(** [df.insert(0, name, x)]: a new first column holding [x] in every row. *)
Definition frame_insert {A} (name : str) (x : A) (df : frame A) : frame A :=
  Frame (name :: columns df) (cons x <$> rows df).

Definition column_index (name : str) (cols : list str) : option nat :=
  fst <$> list_find (fun c => c = name) cols.

(** The cell of a row of strings under column [i]. *)
Definition key_at (i : nat) (r : list str) : str := default [] (r !! i).

Definition row_le (i : nat) (r1 r2 : list str) : Prop :=
  str_le (key_at i r1) (key_at i r2).

#[global] Instance row_le_dec i r1 r2 : Decision (row_le i r1 r2).
Proof. unfold row_le, str_le. apply _. Defined.

(** [df.sort_values(by=name)] on a column of strings: the rows in
    ascending order of that column.  pandas promises no order among equal
    keys; the merge sort used here keeps them as they were. *)
Definition sort_values (name : str) (df : frame str) : result (frame str) :=
  match column_index name (columns df) with
  | None => Raise KeyError
  | Some i => Ok (Frame (columns df) (merge_sort (row_le i) (rows df)))
  end.

(** [dataframe_to_rows(df, index=False, header=False)]. *)
Definition dataframe_to_rows {A} (df : frame A) : list (list A) := rows df.

(** The columns of [pd.DataFrame(records)]: every key, in first-seen
    order. *)
Definition add_key (acc : list str) (k : str) : list str :=
  if decide (k ∈ acc) then acc else acc ++ [k].

Definition union_keys (records : list dict) : list str :=
  foldl (fun acc r => foldl add_key acc (fst <$> r)) [] records.

Definition DataFrame_of_records (records : list dict) : frame value :=
  let cols := union_keys records in
  Frame cols ((fun r => (fun c => default NaN (dict_get c r)) <$> cols)
                <$> records).

(** [df[names]]: the named columns, in the order asked for. *)
Definition select_columns (names : list str) (df : frame value)
  : result (frame value) :=
  match mapM (M := option) (fun n => column_index n (columns df)) names with
  | None => Raise KeyError
  | Some idx =>
      Ok (Frame names ((fun r => (fun i => default NaN (r !! i)) <$> idx)
                         <$> rows df))
  end.

(** ** Workbooks *)

Record worksheet : Type := Worksheet {
  title : str;
  cells : list (list value)
}.

(** A workbook is its sheets in order; a sheet is referred to by its
    position. *)
Abbreviation workbook := (list worksheet).

(** [wb.create_sheet(title=t)]: the new sheet goes last. *)
Definition create_sheet (t : str) (wb : workbook) : workbook * nat :=
  (wb ++ [Worksheet t []], length wb).

(** A row of strings as a row of cells. *)
Definition str_cells (r : list str) : list value := VStr <$> r.

(** [ws.append(row)]. *)
Definition ws_append (ws : nat) (row : list value) (wb : workbook)
  : workbook :=
  alter (fun w => Worksheet (title w) (cells w ++ [row])) ws wb.

Definition ws_append_all (ws : nat) (rs : list (list value)) (wb : workbook)
  : workbook :=
  foldl (fun wb r => ws_append ws r wb) wb rs.

(** ** The state a batch driver works on *)

Record state : Type := State {
  st_wb : workbook;
  st_summary : list (list value);   (* summary_data *)
  st_fs : storage                    (* the temporary directory *)
}.

(** How a driver ends: it returns, or an exception leaves it. *)
Inductive outcome : Set :=
| Normal
| Raised (e : exn).

(** [os.remove(path)]. *)
Definition os_remove (path : str) (st : state) : state * outcome :=
  match st_fs st !! path with
  | Some _ => (State (st_wb st) (st_summary st) (delete path (st_fs st)), Normal)
  | None => (st, Raised FileNotFoundError)
  end.

(** A [for] loop over the files with [enumerate(..., start)]: an exception
    that leaves the body leaves the loop. *)
Fixpoint for_files (body : nat -> str -> state -> state * outcome)
    (index : nat) (paths : list str) (st : state) : state * outcome :=
  match paths with
  | [] => (st, Normal)
  | p :: rest =>
      match body index p st with
      | (st', Normal) => for_files body (S index) rest st'
      | (st', Raised e) => (st', Raised e)
      end
  end.

(** ** HTML event logs *)

Definition html_header : list str :=
  txt <$> ["IP Device"; "System Name"; "Entry ID"; "Date"; "Time";
           "Error Type"; "Error Code"; "TaskName"; "Filename"; "Line";
           "Parameter"]%string.

Definition html_columns : list str :=
  txt <$> ["Entry ID"; "Date"; "Time"; "Error Type"; "Error Code";
           "TaskName"; "Filename"; "Line"; "Parameter"]%string.

Definition html_ip_device (html_content : str) : str :=
  match Re.search ip_pattern html_content with
  | Some m => Re.group 1 m.1
  | None => txt "Unknown"
  end.

Definition html_system_name (html_content : str) : str :=
  match Re.search system_name_pattern html_content with
  | Some m => first_part (split_on (ch "<") (strip (Re.group 1 m.1)))
  | None => txt "Unknown"
  end.

(** The rows one file adds to the sheet, as the [try] block builds them. *)
Definition html_rows (html_content : str) : result (list (list str)) :=
  let events := Re.findall html_pattern1 9 html_content in
  let df := Frame html_columns events in
  let df := frame_insert (txt "System Name") (html_system_name html_content) df in
  let df := frame_insert (txt "IP Device") (html_ip_device html_content) df in
  let! df_sorted := sort_values (txt "Entry ID") df in
  Ok (dataframe_to_rows df_sorted).

(** The body of the [try] block for one file. *)
Definition html_try (ws : nat) (index : nat) (file_address : str)
    (st : state) : result state :=
  let! html_content :=
    read_file_with_multiple_encodings (st_fs st) file_address default_encodings in
  match Re.findall html_pattern1 9 html_content with
  | [] => Ok st                                   (* continue *)
  | _ =>
      let! sorted := html_rows html_content in
      Ok (State
            (ws_append_all ws (str_cells <$> sorted) (st_wb st))
            (st_summary st ++
               [[VInt (Z.of_nat index); VStr (basename file_address);
                 VStr (html_ip_device html_content);
                 VStr (html_system_name html_content)]])
            (st_fs st))
  end.

(** One turn of the loop: [try], the two [except] clauses that only print,
    and [finally: os.remove(file_address)]. *)
Definition html_file (ws : nat) (index : nat) (file_address : str)
    (st : state) : state * outcome :=
  let st1 := match html_try ws index file_address st with
             | Ok st' => st'
             | Raise _ => st
             end in
  os_remove file_address st1.

Definition process_html_files (file_addresses : list str) (st : state)
  : state * outcome :=
  let '(wb, ws_event_log) := create_sheet (txt "Output_event_log") (st_wb st) in
  let wb := ws_append ws_event_log (str_cells html_header) wb in
  for_files (html_file ws_event_log) 1 file_addresses
    (State wb (st_summary st) (st_fs st)).

(** ** Syslog and text logs *)

Definition log_header : list str :=
  txt <$> ["System Name"; "Month"; "Date"; "Timestamp"; "Facility";
           "Severity Level"; "Mnemonic"; "Message Text"; "Traceback"]%string.

Definition log_columns : list str :=
  txt <$> ["Month"; "Date"; "Timestamp"; "Facility"; "Severity Level";
           "Mnemonic"; "Message Text"; "Traceback"]%string.

(** [os.path.basename(p).split('.')[0].split('_')[-1]]. *)
Definition log_system_name (file_address : str) : str :=
  last_part
    (split_on (ch "_") (first_part (split_on (ch ".") (basename file_address)))).

Definition log_rows (system_name : str) (txt_content : str)
  : result (list (list str)) :=
  let events := Re.findall log_pattern1 8 txt_content in
  let df := Frame log_columns events in
  let df := frame_insert (txt "System Name") system_name df in
  let! df_sorted := sort_values (txt "Timestamp") df in
  Ok (dataframe_to_rows df_sorted).

Definition log_try (ws : nat) (index : nat) (file_address : str)
    (st : state) : result state :=
  let system_name := log_system_name file_address in
  let! txt_content :=
    read_file_with_multiple_encodings (st_fs st) file_address default_encodings in
  match Re.findall log_pattern1 8 txt_content with
  | [] => Ok st                                   (* continue *)
  | _ =>
      let! sorted := log_rows system_name txt_content in
      Ok (State
            (ws_append_all ws (str_cells <$> sorted) (st_wb st))
            (st_summary st ++
               [[VInt (Z.of_nat index); VStr (basename file_address);
                 VStr system_name]])
            (st_fs st))
  end.

Definition log_file (ws : nat) (index : nat) (file_address : str)
    (st : state) : state * outcome :=
  let st1 := match log_try ws index file_address st with
             | Ok st' => st'
             | Raise _ => st
             end in
  os_remove file_address st1.

Definition process_log_files (file_addresses : list str) (st : state)
  : state * outcome :=
  let '(wb, ws_syslog) := create_sheet (txt "Syslog") (st_wb st) in
  let wb := ws_append ws_syslog (str_cells log_header) wb in
  for_files (log_file ws_syslog) 1 file_addresses
    (State wb (st_summary st) (st_fs st)).

(** ** JSON-line feeds: link status and equipment status *)

Section JsonLines.

(** [json.loads] on a fragment that starts at an opening brace: the
    object it denotes, or [None] for [JSONDecodeError]. *)
Variable json_loads : str -> option dict.

(** [str(v)] on a nested value. *)
Variable py_str : value -> str.

(** The encoding [open(path, 'r')] uses when none is given. *)
Variable locale_encoding : encoding.

(** [with open(file_path, 'r') as file: for line in file]. *)
Definition read_lines (fs : storage) (file_path : str) : result (list str) :=
  let! content := open_read fs file_path locale_encoding in
  Ok (file_lines content).

(** [line[line.find('{'):]]. *)
Definition json_fragment (line : str) : str :=
  slice_from (find (ch "{") line) line.

(** *** Link status *)

(** What one line adds to [json_list] in [extract_link_data]. *)
Definition link_line (line : str) : result (list dict) :=
  match Re.search json_fragment_pattern line with
  | None => Ok []
  | Some _ =>
      match Re.match_ info_prefix_pattern line with
      | None => Ok []
      | Some date_time_match =>
          let date_time := Re.group 1 date_time_match.1 in
          match split_on (ch " ") date_time with
          | [date; time] =>
              match json_loads (json_fragment line) with
              | Some data =>
                  let data := dict_set (txt "Date") (VStr date) data in
                  let data := dict_set (txt "Time") (VStr time) data in
                  Ok [data]
              | None => Ok []                 (* Invalid JSON: print *)
              end
          | _ => Raise ValueError
          end
      end
  end.

Definition extract_lines (per_line : str -> result (list dict))
    (lines : list str) : result (list dict) :=
  for_each
    (fun json_list line =>
       let! found := per_line line in Ok (json_list ++ found))
    lines [].

Definition extract_link_data (fs : storage) (file_path : str)
  : result (list dict) :=
  let! lines := read_lines fs file_path in
  extract_lines link_line lines.

(** [for item in items: item.update(data); all_items.append(item)]. *)
Definition merge_parent (data : dict) (items : list value)
  : result (list dict) :=
  for_each
    (fun merged item =>
       let! item := item_update item data in Ok (merged ++ [item]))
    items [].

(** The records one payload contributes: its [items], each updated with
    what is left of the payload. *)
Definition link_payload_items (data : dict) : result (list dict) :=
  let '(items, data) := dict_pop (txt "items") (VList []) data in
  let! items := iterate items in
  merge_parent data items.

Definition collect_payloads (per_payload : dict -> result (list dict))
    (json_data : list dict) (all_items : list dict) : result (list dict) :=
  for_each
    (fun all_items data =>
       let! found := per_payload data in Ok (all_items ++ found))
    json_data all_items.

Definition collect_link_items (fs : storage) (file_paths : list str)
  : result (list dict) :=
  for_each
    (fun all_items file_path =>
       let! json_data := extract_link_data fs file_path in
       collect_payloads link_payload_items json_data all_items)
    file_paths [].

(** [items_df = pd.DataFrame(all_items)] with [Date] and [Time] moved to
    the front. *)
Definition ordered_frame (all_items : list dict) : result (frame value) :=
  let items_df := DataFrame_of_records all_items in
  let columns_order :=
    [txt "Date"; txt "Time"]
      ++ filter (fun col => col ∉ [txt "Date"; txt "Time"]) (columns items_df) in
  select_columns columns_order items_df.

(** The batch's one summary row. *)
Definition batch_summary (count : nat) (file_paths : list str) : list value :=
  [VInt (Z.of_nat count); VStr (basename (List.last file_paths []))].

Definition process_link_files (file_paths : list str) (st : state)
  : state * outcome :=
  let '(wb, ws) := create_sheet (txt "link_status_jms") (st_wb st) in
  let st := State wb (st_summary st) (st_fs st) in
  match collect_link_items (st_fs st) file_paths with
  | Raise e => (st, Raised e)
  | Ok [] => (st, Normal)                       (* No JSON data: return *)
  | Ok all_items =>
      match ordered_frame all_items with
      | Raise e => (st, Raised e)
      | Ok items_df =>
          let wb := ws_append ws (str_cells (columns items_df)) wb in
          let wb := ws_append_all ws (dataframe_to_rows items_df) wb in
          (State wb
             (st_summary st ++ [batch_summary (length file_paths) file_paths])
             (st_fs st),
           Normal)
      end
  end.

(** *** Equipment status *)

(** [v.split(sep)]: only a string has the method. *)
Definition value_split (v : value) (sep : N) : result (list str) :=
  match v with
  | VStr s => Ok (split_on sep s)
  | _ => Raise AttributeError
  end.

(** What one line adds to [json_list] in [extract_equipment_data]. *)
Definition equipment_line (line : str) : result (list dict) :=
  match Re.search json_fragment_pattern line with
  | None => Ok []
  | Some _ =>
      match json_loads (json_fragment line) with
      | None => Ok []                           (* Invalid JSON: print *)
      | Some data =>
          match dict_get (txt "messageSendTime") data with
          | None => Ok []
          | Some datetime_str =>
              let! parts := value_split datetime_str (ch "T") in
              match parts with
              | [date; time] =>
                  let time := first_part (split_on (ch "+") time) in
                  let data := dict_set (txt "Date") (VStr date) data in
                  let data :=
                    dict_set (txt "Time")
                      (VStr (first_part (split_on (ch ".") time))) data in
                  Ok [data]
              | _ => Raise ValueError
              end
          end
      end
  end.

Definition extract_equipment_data (fs : storage) (file_path : str)
  : result (list dict) :=
  let! lines := read_lines fs file_path in
  extract_lines equipment_line lines.

Definition is_equipmentItems (v : value) : bool :=
  match v with
  | VStr s => bool_decide (s = txt "equipmentItems")
  | _ => false
  end.

(** One turn of [flatten_items]: [item.copy()], then the nested
    [equipmentItems] turned into a string. *)
Definition flatten_item (item : value) : result value :=
  match item with
  | VDict d =>
      match dict_get (txt "equipmentItems") d with
      | Some nested =>
          Ok (VDict (dict_set (txt "equipmentItems") (VStr (py_str nested)) d))
      | None => Ok (VDict d)
      end
  | VList l => if existsb is_equipmentItems l then Raise TypeError else Ok (VList l)
  | _ => Raise AttributeError
  end.

Definition flatten_items (items : value) : result (list value) :=
  let! items := iterate items in
  for_each
    (fun flat_items item =>
       let! flat_item := flatten_item item in Ok (flat_items ++ [flat_item]))
    items [].

Definition equipment_payload_items (data : dict) : result (list dict) :=
  let '(items, data) := dict_pop (txt "items") (VList []) data in
  if truthy items then
    let! flat_items := flatten_items items in
    merge_parent data flat_items
  else Ok [].

(** The loop over the files: the records and [total_files_processed]. *)
Definition collect_equipment_items (fs : storage) (file_paths : list str)
  : result (list dict * nat) :=
  for_each
    (fun '(all_items, total_files_processed) file_path =>
       let! json_data := extract_equipment_data fs file_path in
       let! all_items :=
         collect_payloads equipment_payload_items json_data all_items in
       Ok (all_items, S total_files_processed))
    file_paths ([], O).

(** The row limit of one sheet. *)
Definition columns_per_sheet : nat := N.to_nat 1000000.

(** The loop of [add_data_to_sheet]: it stops at the limit. *)
Fixpoint append_capped (limit ws : nat) (rs : list (list value))
    (row_count : nat) (wb : workbook) : workbook * nat :=
  match rs with
  | [] => (wb, row_count)
  | row :: rest =>
      if (limit <=? row_count)%nat then (wb, row_count)       (* break *)
      else append_capped limit ws rest (S row_count) (ws_append ws row wb)
  end.

(** [add_data_to_sheet(df)]; [ws] and [row_count] are the enclosing
    function's variables, read when the call is made. *)
Definition add_data_to_sheet (limit ws : nat) (df : frame value)
    (row_count : nat) (wb : workbook) : workbook * nat :=
  let wb := if (row_count =? 0)%nat
            then ws_append ws (str_cells (columns df)) wb
            else wb in
  append_capped limit ws (dataframe_to_rows df) row_count wb.

(** [items_df.empty]. *)
Definition frame_empty {A} (df : frame A) : bool :=
  bool_decide (rows df = []) || bool_decide (columns df = []).

(** The title of a spill-over sheet, [Sheet] followed by a number. *)
Definition sheet_title (n : nat) : str :=
  txt "Sheet" ++ txt (DecimalString.NilZero.string_of_uint (Nat.to_uint n)).

(** [while not items_df.empty: ...].  [fuel] bounds the number of turns;
    [None] means the bound was reached with rows still to place. *)
Fixpoint paginate (fuel limit : nat) (items_df : frame value)
    (ws row_count : nat) (wb : workbook) : option workbook :=
  match fuel with
  | O => None
  | S fuel =>
      if frame_empty items_df then Some wb
      else
        let '(wb, ws, row_count) :=
          if (limit <=? row_count)%nat
          then let '(wb, ws) := create_sheet (sheet_title (length wb + 1)) wb in
               (wb, ws, O)
          else (wb, ws, row_count) in
        let split_index := (limit - row_count) `min` length (rows items_df) in
        let part_df := Frame (columns items_df) (take split_index (rows items_df)) in
        let items_df := Frame (columns items_df) (drop split_index (rows items_df)) in
        let '(wb, row_count) := add_data_to_sheet limit ws part_df row_count wb in
        paginate fuel limit items_df ws row_count wb
  end.

(** [process_equipment_files] with the row limit as a parameter.  Every
    turn of the loop places at least one row when the limit is positive,
    so one turn per row and one more is enough; [None] stands for a loop
    that does not end. *)
Definition process_equipment_files_with (limit : nat)
    (file_paths : list str) (st : state) : option (state * outcome) :=
  let '(wb, ws) := create_sheet (txt "equipment_status") (st_wb st) in
  let st := State wb (st_summary st) (st_fs st) in
  match collect_equipment_items (st_fs st) file_paths with
  | Raise e => Some (st, Raised e)
  | Ok ([], _) => Some (st, Normal)             (* No JSON data: return *)
  | Ok (all_items, total_files_processed) =>
      match ordered_frame all_items with
      | Raise e => Some (st, Raised e)
      | Ok items_df =>
          wb ← paginate (S (length (rows items_df))) limit items_df ws 0 wb;
          Some (State wb
                  (st_summary st
                     ++ [batch_summary total_files_processed file_paths])
                  (st_fs st),
                Normal)
      end
  end.

Definition process_equipment_files : list str -> state -> option (state * outcome) :=
  process_equipment_files_with columns_per_sheet.

End JsonLines.

(** ** The request handler's dispatch

    [index] hands each group of uploads to its driver.  The two formats
    read with a pattern share one shape, and so do the two JSON-line feeds;
    the definitions below name what differs. *)

Inductive log_format : Set :=
| HtmlEvent      (* .html: process_html_files *)
| Syslog.        (* .log and .txt: process_log_files *)

Definition format_events (f : log_format) (content : str) : list (list str) :=
  match f with
  | HtmlEvent => Re.findall html_pattern1 9 content
  | Syslog => Re.findall log_pattern1 8 content
  end.

Definition format_header (f : log_format) : list str :=
  match f with
  | HtmlEvent => html_header
  | Syslog => log_header
  end.

Definition format_title (f : log_format) : str :=
  match f with
  | HtmlEvent => txt "Output_event_log"
  | Syslog => txt "Syslog"
  end.

Definition format_file (f : log_format)
  : nat -> nat -> str -> state -> state * outcome :=
  match f with
  | HtmlEvent => html_file
  | Syslog => log_file
  end.

Definition process_format (f : log_format)
  : list str -> state -> state * outcome :=
  match f with
  | HtmlEvent => process_html_files
  | Syslog => process_log_files
  end.

Inductive feed : Set :=
| LinkStatus          (* process_link_files *)
| EquipmentStatus.    (* process_equipment_files *)

Section Feeds.
Variable json_loads : str -> option dict.
Variable py_str : value -> str.
Variable locale_encoding : encoding.

(** The records a batch yields, when collecting them raises nothing. *)
Definition feed_records (k : feed) (fs : storage) (file_paths : list str)
  : result (list dict) :=
  match k with
  | LinkStatus => collect_link_items json_loads locale_encoding fs file_paths
  | EquipmentStatus =>
      let! collected :=
        collect_equipment_items json_loads py_str locale_encoding fs file_paths in
      Ok collected.1
  end.

(** The records one payload yields. *)
Definition feed_payload_items (k : feed) (data : dict) : result (list dict) :=
  match k with
  | LinkStatus => link_payload_items data
  | EquipmentStatus => equipment_payload_items py_str data
  end.

Definition process_feed (k : feed) (file_paths : list str) (st : state)
  : option (state * outcome) :=
  match k with
  | LinkStatus =>
      Some (process_link_files json_loads locale_encoding file_paths st)
  | EquipmentStatus =>
      process_equipment_files json_loads py_str locale_encoding file_paths st
  end.
End Feeds.

(** ** Notions the statements use *)

(** The file is read, and the format's pattern matches nowhere in it. *)
Definition yields_no_match (f : log_format) (fs : storage) (p : str) : Prop :=
  exists content,
    read_file_with_multiple_encodings fs p default_encodings = Ok content /\
    format_events f content = [].

(** What [flatten_items] makes of one dictionary. *)
Definition flattened (py_str : value -> str) (item : dict) : dict :=
  match dict_get (txt "equipmentItems") item with
  | Some nested => dict_set (txt "equipmentItems") (VStr (py_str nested)) item
  | None => item
  end.

(** A record with both derived fields. *)
Definition has_date_time (d : dict) : Prop :=
  is_Some (dict_get (txt "Date") d) /\ is_Some (dict_get (txt "Time") d).



(** ** What a pattern accepts *)

(** The texts a pattern can match, read off its syntax. *)
Fixpoint accepts (r : Re.re) (s : str) : Prop :=
  match r with
  | Re.Lit p => s = p
  | Re.Rep c lo hi =>
      Forall (fun x => Is_true (Re.cls_test c x)) s /\ lo <= length s /\
      match hi with Some h => length s <= h | None => True end
  | Re.Seq r1 r2 => exists s1 s2, s = s1 ++ s2 /\ accepts r1 s1 /\ accepts r2 s2
  | Re.Alt r1 r2 => accepts r1 s \/ accepts r2 s
  | Re.Group _ r1 => accepts r1 s
  | Re.Opt r1 => s = [] \/ accepts r1 s
  end.

(** Every group of the pattern encloses a sub-pattern whose texts all
    have the property [P] states for that group. *)
Fixpoint groups_meet (P : nat -> str -> Prop) (r : Re.re) : Prop :=
  match r with
  | Re.Lit _ | Re.Rep _ _ _ => True
  | Re.Seq r1 r2 | Re.Alt r1 r2 => groups_meet P r1 /\ groups_meet P r2
  | Re.Group n r1 => (forall t, accepts r1 t -> P n t) /\ groups_meet P r1
  | Re.Opt r1 => groups_meet P r1
  end.

(** Group [n] takes part in every match of the pattern. *)
Fixpoint always_sets (n : nat) (r : Re.re) : bool :=
  match r with
  | Re.Lit _ | Re.Rep _ _ _ => false
  | Re.Seq r1 r2 => always_sets n r1 || always_sets n r2
  | Re.Alt r1 r2 => always_sets n r1 && always_sets n r2
  | Re.Group m r1 => (m =? n)%nat || always_sets n r1
  | Re.Opt _ => false
  end.

(** The shape of a field: one class per character. *)
Fixpoint fits (mask : list Re.cls) (s : str) : bool :=
  match mask, s with
  | [], [] => true
  | k :: mask', c :: s' => Re.cls_test k c && fits mask' s'
  | _, _ => false
  end.



(** The mask of a pattern that matches texts of one shape only. *)
Fixpoint mask_of (r : Re.re) : option (list Re.cls) :=
  match r with
  | Re.Lit p => Some (Re.Char <$> p)
  | Re.Rep k lo (Some hi) => if (lo =? hi)%nat then Some (replicate lo k) else None
  | Re.Seq r1 r2 => m1 ← mask_of r1; m2 ← mask_of r2; Some (m1 ++ m2)
  | Re.Group _ r1 => mask_of r1
  | _ => None
  end.


Definition time_mask : list Re.cls :=
  [Re.Digit; Re.Digit; Re.Char (ch ":"); Re.Digit; Re.Digit; Re.Char (ch ":");
   Re.Digit; Re.Digit].


(** [yyyy-mm-dd], the date of a link-status line. *)
Definition iso_date_mask : list Re.cls :=
  [Re.Digit; Re.Digit; Re.Digit; Re.Digit; Re.Char (ch "-"); Re.Digit; Re.Digit;
   Re.Char (ch "-"); Re.Digit; Re.Digit].




(** What one line of a feed adds to [json_list]. *)
Definition feed_line (json_loads : str -> option dict) (k : feed)
  : str -> result (list dict) :=
  match k with
  | LinkStatus => link_line json_loads
  | EquipmentStatus => equipment_line json_loads
  end.

(** The title of the sheet a feed's driver creates. *)
Definition feed_title (k : feed) : str :=
  match k with
  | LinkStatus => txt "link_status_jms"
  | EquipmentStatus => txt "equipment_status"
  end.

(** ** What one file of a batch contributes *)

Definition format_rows (f : log_format) (file_address content : str)
  : result (list (list str)) :=
  match f with
  | HtmlEvent => html_rows content
  | Syslog => log_rows (log_system_name file_address) content
  end.

Definition format_summary (f : log_format) (index : nat)
    (file_address content : str) : list value :=
  match f with
  | HtmlEvent =>
      [VInt (Z.of_nat index); VStr (basename file_address);
       VStr (html_ip_device content); VStr (html_system_name content)]
  | Syslog =>
      [VInt (Z.of_nat index); VStr (basename file_address);
       VStr (log_system_name file_address)]
  end.

(** The rows and the summary entries that the [try] block of one turn
    adds, for the file at position [index] of the batch. *)
Definition file_block (f : log_format) (fs : storage) (index : nat)
    (file_address : str) : list (list value) * list (list value) :=
  match read_file_with_multiple_encodings fs file_address default_encodings with
  | Ok content =>
      match format_events f content with
      | [] => ([], [])
      | _ =>
          match format_rows f file_address content with
          | Ok sorted =>
              (str_cells <$> sorted, [format_summary f index file_address content])
          | Raise _ => ([], [])
          end
      end
  | Raise _ => ([], [])
  end.

(** The storage without the files of a batch. *)
Definition without (paths : list str) (fs : storage) : storage :=
  foldr delete fs paths.

(** ** The uploads and their groups

    The first lines of [index]: the uploaded files are sorted into five
    groups by their names. *)

(** [s.startswith(p)] and [s.endswith(p)]. *)
Fixpoint startswith (p s : str) : bool :=
  match p, s with
  | [], _ => true
  | c :: p', x :: s' => (x =? c)%N && startswith p' s'
  | _ :: _, [] => false
  end.

Definition endswith (p s : str) : bool := startswith (rev p) (rev s).

(** An uploaded file: the name the browser sent and the bytes. *)
Record upload : Type := Upload {
  filename : str;
  stream : list byte
}.

(** [file.filename.split('/')[1]]; [None] stands for [IndexError]. *)
Definition second_segment (file : upload) : option str :=
  split_on (ch "/") (filename file) !! 1.

(** The conditions of the five list comprehensions.  [and] evaluates its
    right operand only when the left one holds. *)
Definition is_html (file : upload) : option bool :=
  Some (endswith (txt ".html") (filename file)).

Definition neither_feed (file : upload) : option bool :=
  folder ← second_segment file;
  Some (negb (startswith (txt "link") folder)
        && negb (startswith (txt "equipment") folder)).

Definition is_log (file : upload) : option bool :=
  if endswith (txt ".log") (filename file) then neither_feed file else Some false.

Definition is_text (file : upload) : option bool :=
  if endswith (txt ".txt") (filename file) then neither_feed file else Some false.

Definition is_link (file : upload) : option bool :=
  folder ← second_segment file;
  Some (startswith (txt "link") folder
        && negb (startswith (txt "equipment") folder)).

Definition is_equipment (file : upload) : option bool :=
  folder ← second_segment file;
  Some (startswith (txt "equipment") folder).

(** [[file for file in input_files if cond(file)]]; [None] when the
    condition raises. *)
Fixpoint comprehension (cond : upload -> option bool) (input_files : list upload)
  : option (list upload) :=
  match input_files with
  | [] => Some []
  | file :: rest =>
      keep ← cond file;
      kept ← comprehension cond rest;
      Some (if keep : bool then file :: kept else kept)
  end.

Record file_groups : Type := FileGroups {
  html_files : list upload;
  log_files : list upload;
  text_files : list upload;
  link_files : list upload;
  equipment_files : list upload
}.

Definition group_uploads (input_files : list upload) : option file_groups :=
  html ← comprehension is_html input_files;
  logs ← comprehension is_log input_files;
  texts ← comprehension is_text input_files;
  links ← comprehension is_link input_files;
  equipment ← comprehension is_equipment input_files;
  Some (FileGroups html logs texts links equipment).

(** * Sample inputs

    Concrete files and payloads on which the statements below are
    evaluated. *)

(** A file that is not valid UTF-8: it is read as iso-8859-1. *)
Definition latin1_file : storage :=
  {[ txt "/tmp/cafe.html" := [Byte.x63; Byte.xe9] ]}.

Definition newline : str := [10%N].

(** A text in double quotes. *)
Definition quoted (s : string) : str := dquote ++ txt s ++ dquote.

(** The bytes of an ASCII text. *)
Definition ascii_bytes (s : str) : list byte :=
  (fun c => default Byte.x00 (Byte.of_N c)) <$> s.

(** An HTML export of the device 10.0.0.1, RTR-1, with two event rows:
    entry 12 first, then entry 3. *)
Definition sample_html : str :=
  txt "<html><body>IP=10.0.0.1<br>" ++ newline
  ++ txt "System Name: RTR-1" ++ newline
  ++ txt "<tr><td>12: <font color=" ++ quoted "#3366FF"
  ++ txt ">01.02.24 10:00:00: ERR 0x12 taskA , main.c , 77<br> ....p1" ++ newline
  ++ txt "<tr><td>3: <font color=" ++ quoted "#009900"
  ++ txt ">01.02.24 09:00:00: WARN 0x01 taskB , util.c , 5<br> ..p2" ++ newline.

Definition sample_html_path : str := txt "/tmp/rtr1.html".

Definition sample_html_state : state :=
  State [] [] {[ sample_html_path := ascii_bytes sample_html ]}.




(** A file with no event in it. *)
Definition sample_empty_path : str := txt "/tmp/empty.html".
Definition sample_other_path : str := txt "/tmp/other.html".

Definition sample_empty_state : state :=
  State [] []
        (<[ sample_empty_path := ascii_bytes (txt "<html></html>") ]>
           {[ sample_other_path := ascii_bytes (txt "no rows here") ]}).

(** A link-status feed of one line: two items under the parent field
    [node], after an [INFO - date time] prefix. *)
Definition sample_link_fragment : str :=
  txt "{" ++ quoted "node" ++ txt ": " ++ quoted "X" ++ txt ", "
  ++ quoted "items" ++ txt ": [{" ++ quoted "a" ++ txt ": 1}, {"
  ++ quoted "a" ++ txt ": 2}]}" ++ newline.

Definition sample_link_line : str :=
  txt "INFO - 2024-01-01 10:00:00 " ++ sample_link_fragment.

Definition sample_link_payload : dict :=
  [(txt "node", VStr (txt "X"));
   (txt "items", VList [VDict [(txt "a", VInt 1)]; VDict [(txt "a", VInt 2)]])].

(** Two equipment-status lines: the first payload has a
    [messageSendTime], the second has none. *)
Definition sample_equipment_fragment : str :=
  txt "{" ++ quoted "messageSendTime" ++ txt ": "
  ++ quoted "2024-01-01T10:00:00.123+07:00" ++ txt ", "
  ++ quoted "node" ++ txt ": " ++ quoted "X" ++ txt ", "
  ++ quoted "items" ++ txt ": [{" ++ quoted "id" ++ txt ": 1, "
  ++ quoted "equipmentItems" ++ txt ": [7]}]}" ++ newline.

Definition sample_equipment_payload : dict :=
  [(txt "messageSendTime", VStr (txt "2024-01-01T10:00:00.123+07:00"));
   (txt "node", VStr (txt "X"));
   (txt "items",
    VList [VDict [(txt "id", VInt 1); (txt "equipmentItems", VList [VInt 7])]])].

Definition sample_untimed_fragment : str :=
  txt "{" ++ quoted "node" ++ txt ": " ++ quoted "Y" ++ txt ", "
  ++ quoted "items" ++ txt ": [{" ++ quoted "id" ++ txt ": 2}]}" ++ newline.

Definition sample_untimed_payload : dict :=
  [(txt "node", VStr (txt "Y"));
   (txt "items", VList [VDict [(txt "id", VInt 2)]])].

(** An equipment-status line with fifteen items, numbered from 1. *)
Definition numeral (n : nat) : str :=
  txt (DecimalString.NilZero.string_of_uint (Nat.to_uint n)).

Fixpoint join (sep : str) (l : list str) : str :=
  match l with
  | [] => []
  | [s] => s
  | s :: r => s ++ sep ++ join sep r
  end.

Definition sample_batch_ids : list nat := seq 1 15.

Definition sample_batch_fragment : str :=
  txt "{" ++ quoted "messageSendTime" ++ txt ": "
  ++ quoted "2024-01-01T10:00:00+07:00" ++ txt ", "
  ++ quoted "items" ++ txt ": ["
  ++ join (txt ", ")
       ((fun n => txt "{" ++ quoted "id" ++ txt ": " ++ numeral n ++ txt "}")
          <$> sample_batch_ids)
  ++ txt "]}" ++ newline.

Definition sample_batch_payload : dict :=
  [(txt "messageSendTime", VStr (txt "2024-01-01T10:00:00+07:00"));
   (txt "items",
    VList ((fun n => VDict [(txt "id", VInt (Z.of_nat n))]) <$> sample_batch_ids))].



(** [json.loads] on the fragments above; any other text is taken to be
    invalid JSON. *)
Definition sample_json_loads (s : str) : option dict :=
  if decide (s = sample_link_fragment) then Some sample_link_payload
  else if decide (s = sample_equipment_fragment) then Some sample_equipment_payload
  else if decide (s = sample_untimed_fragment) then Some sample_untimed_payload
  else if decide (s = sample_batch_fragment) then Some sample_batch_payload
  else None.

(** [str()] on the nested list of the equipment sample. *)
Definition sample_py_str (v : value) : str := txt "[7]".

Definition sample_link_path : str := txt "/tmp/link_status.log".
Definition sample_equipment_path : str := txt "/tmp/equipment_status.log".
Definition sample_untimed_path : str := txt "/tmp/equipment_untimed.log".

Definition sample_feed_state : state :=
  State [] []
        (<[ sample_link_path := ascii_bytes sample_link_line ]>
           (<[ sample_equipment_path :=
                 ascii_bytes (txt "status " ++ sample_equipment_fragment) ]>
              {[ sample_untimed_path := ascii_bytes sample_untimed_fragment ]})).

(** A payload whose item has a [node] of its own. *)
Definition sample_shadowing_payload : dict :=
  [(txt "node", VStr (txt "X"));
   (txt "items", VList [VDict [(txt "a", VInt 1); (txt "node", VStr (txt "own"))]]);
   (txt "Date", VStr (txt "2024-01-01"));
   (txt "Time", VStr (txt "10:00:00"))].


(** The two records of the link-status sample. *)
Definition sample_link_records : list dict :=
  [[(txt "a", VInt 1); (txt "node", VStr (txt "X"));
    (txt "Date", VStr (txt "2024-01-01")); (txt "Time", VStr (txt "10:00:00"))];
   [(txt "a", VInt 2); (txt "node", VStr (txt "X"));
    (txt "Date", VStr (txt "2024-01-01")); (txt "Time", VStr (txt "10:00:00"))]].

(** A syslog event whose traceback is on the line after it. *)
Definition sample_traceback_log : str :=
  txt "*Mar  1 00:00:10.123: %SYS-3-CPUHOG: Task ran long" ++ newline
  ++ txt "-Traceback= 0x1 0x2" ++ newline.

(** An equipment-status line whose [messageSendTime] has a space where the
    [T] should be. *)
Definition sample_spaced_fragment : str :=
  txt "{" ++ quoted "messageSendTime" ++ txt ": "
  ++ quoted "2024-01-01 10:00:00" ++ txt ", "
  ++ quoted "items" ++ txt ": [{" ++ quoted "id" ++ txt ": 3}]}" ++ newline.

Definition sample_spaced_payload : dict :=
  [(txt "messageSendTime", VStr (txt "2024-01-01 10:00:00"));
   (txt "items", VList [VDict [(txt "id", VInt 3)]])].

Definition sample_spaced_path : str := txt "/tmp/equipment_spaced.log".

(** [json.loads] on that fragment and on the earlier ones. *)
Definition sample_json_loads_more (s : str) : option dict :=
  if decide (s = sample_spaced_fragment) then Some sample_spaced_payload
  else sample_json_loads s.

(** A good equipment file followed by the one with the spaced timestamp. *)
Definition sample_spaced_state : state :=
  State [] []
        (<[ sample_equipment_path :=
              ascii_bytes (txt "status " ++ sample_equipment_fragment) ]>
           {[ sample_spaced_path :=
                ascii_bytes (sample_untimed_fragment ++ txt "status "
                             ++ sample_spaced_fragment) ]}).

(** A file without events and the HTML export, in one storage. *)
Definition sample_pair_state : state :=
  State [] []
        (<[ sample_html_path := ascii_bytes sample_html ]>
           (st_fs sample_empty_state)).

(** Uploads from a folder [site]. *)
Definition sample_uploads : list upload :=
  [Upload (txt "site/rtr1.html") [];
   Upload (txt "site/export_RTR1.log") [];
   Upload (txt "site/notes.txt") [];
   Upload (txt "site/link_status.log") [];
   Upload (txt "site/equipment_status.log") [];
   Upload (txt "site/link_report.html") [];
   Upload (txt "site/readme.md") []].

(** A link-status file in a sub-folder [data]. *)
Definition sample_nested_upload : upload :=
  Upload (txt "site/data/link_status.log") [].

(** * Properties *)

(** ** The reader *)

Lemma open_read_latin1 (fs : storage) (p : str) (bs : list byte) :
  fs !! p = Some bs ->
  open_read fs p Latin1 = Ok (universal_newlines (Byte.to_N <$> bs)).
Proof. intros Hp. unfold open_read. now rewrite Hp. Qed.

(** An existing file is never a [FileNotFoundError]. *)
Lemma open_read_present (fs : storage) (p : str) (bs : list byte) (e : encoding) :
  fs !! p = Some bs ->
  open_read fs p e = Raise UnicodeDecodeError \/ exists t, open_read fs p e = Ok t.
Proof.
  intros Hp. unfold open_read. rewrite Hp.
  destruct (decode e bs); eauto.
Qed.

(** The reader returns [content] exactly when [content] is what the first
    encoding that does not raise [UnicodeDecodeError] gives. *)
Lemma read_first_success (fs : storage) (p : str) (encs : list encoding) (content : str) :
  read_file_with_multiple_encodings fs p encs = Ok content <->
  exists i e,
    encs !! i = Some e /\ open_read fs p e = Ok content /\
    forall j e', j < i -> encs !! j = Some e' ->
                 open_read fs p e' = Raise UnicodeDecodeError.
Proof.
  induction encs as [|e0 encs IH]; simpl.
  - split; [discriminate|]. intros (i & e & Hi & _). now rewrite lookup_nil in Hi.
  - split.
    + destruct (open_read fs p e0) as [t|x] eqn:He0.
      * intros [= ->]. exists 0, e0. repeat split; auto. intros j e' Hj. lia.
      * destruct x; try discriminate.
        intros (i & e & Hi & He & Hlt)%IH.
        exists (S i), e. repeat split; auto.
        intros [|j] e' Hj Hl; simpl in Hl.
        -- now injection Hl as <-.
        -- apply (Hlt j); [lia|done].
    + intros (i & e & Hi & He & Hlt). destruct i as [|i]; simpl in Hi.
      * injection Hi as ->. now rewrite He.
      * rewrite (Hlt 0 e0) by (simpl; auto with lia).
        apply IH. exists i, e. repeat split; auto.
        intros j e' Hj Hl. apply (Hlt (S j)); [lia|done].
Qed.

(** With the program's three encodings an existing file is always read:
    iso-8859-1 gives every byte a character. *)
Lemma read_default_total (fs : storage) (p : str) (bs : list byte) :
  fs !! p = Some bs ->
  exists content,
    read_file_with_multiple_encodings fs p default_encodings = Ok content.
Proof.
  intros Hp. unfold default_encodings. simpl.
  destruct (open_read_present fs p bs Utf8 Hp) as [->|[t ->]]; [|eauto].
  rewrite (open_read_latin1 fs p bs Hp). eauto.
Qed.

(** C5.  For a file in storage, the reader returns the text read under the
    first of utf-8, iso-8859-1, windows-1252 that decodes it, and it raises
    [UnicodeDecodeError] exactly when all three fail.  (Neither side of the
    second statement can happen: iso-8859-1 decodes every file.) *)
Theorem reader_first_successful_encoding
    (fs : storage) (file_path : str) (bs : list byte) :
  fs !! file_path = Some bs ->
  (forall content,
     read_file_with_multiple_encodings fs file_path default_encodings = Ok content <->
     exists i e,
       default_encodings !! i = Some e /\
       open_read fs file_path e = Ok content /\
       forall j e', j < i -> default_encodings !! j = Some e' ->
                    open_read fs file_path e' = Raise UnicodeDecodeError)
  /\ (read_file_with_multiple_encodings fs file_path default_encodings
        = Raise UnicodeDecodeError <->
      forall e, e ∈ default_encodings ->
                open_read fs file_path e = Raise UnicodeDecodeError).
Proof.
  intros Hp. split.
  - intros content. apply read_first_success.
  - split.
    + intros Hr. destruct (read_default_total fs file_path bs Hp) as [c Hc].
      congruence.
    + intros Hall. specialize (Hall Latin1).
      rewrite (open_read_latin1 fs file_path bs Hp) in Hall.
      discriminate Hall. unfold default_encodings. set_solver.
Qed.

Lemma reader_first_successful_encoding_witness :
  read_file_with_multiple_encodings latin1_file (txt "/tmp/cafe.html")
    default_encodings = Ok [99; 233]%N.
Proof.
  apply (reader_first_successful_encoding latin1_file (txt "/tmp/cafe.html")
           [Byte.x63; Byte.xe9]); [reflexivity|].
  exists 1, Latin1. split; [reflexivity|]. split; [reflexivity|].
  intros [|j] e' Hj Hl; [|lia]. injection Hl as <-. reflexivity.
Defined.

(** ** Order on strings and sorted frames *)

Lemma str_leb_total (s1 s2 : str) : str_leb s1 s2 = true \/ str_leb s2 s1 = true.
Proof.
  revert s2. induction s1 as [|c1 r1 IH]; intros [|c2 r2]; simpl; auto.
  destruct (N.ltb_spec c1 c2), (N.ltb_spec c2 c1); auto; lia.
Qed.

Lemma str_leb_refl (s : str) : str_leb s s = true.
Proof. induction s as [|c r IH]; simpl; [done|]. now rewrite N.ltb_irrefl. Qed.

Lemma str_leb_trans (s1 s2 s3 : str) :
  str_leb s1 s2 = true -> str_leb s2 s3 = true -> str_leb s1 s3 = true.
Proof.
  revert s2 s3. induction s1 as [|c1 r1 IH]; intros [|c2 r2] [|c3 r3]; simpl; auto;
    try discriminate.
  destruct (N.ltb_spec c1 c2), (N.ltb_spec c2 c1), (N.ltb_spec c2 c3),
    (N.ltb_spec c3 c2), (N.ltb_spec c1 c3), (N.ltb_spec c3 c1);
    try discriminate; try lia; eauto.
Qed.

(** [str_le] is Python's [<=]: equal, or smaller at the first difference
    (stdpp's lexicographic order on lists of numbers). *)
Lemma str_le_lexico (s1 s2 : str) : str_le s1 s2 <-> s1 = s2 \/ lexico s1 s2.
Proof.
  unfold str_le. revert s2.
  induction s1 as [|c1 r1 IH]; intros [|c2 r2]; simpl.
  - split; auto.
  - split; [intros _; right; exact I|auto].
  - split; [intros []|]. intros [|[]]. discriminate.
  - unfold lexico at 1. simpl. unfold lexico at 1, prod_lexico. simpl.
    unfold lexico at 1, N_lexico.
    destruct (N.ltb_spec c1 c2), (N.ltb_spec c2 c1); try lia; simpl.
    + split; auto.
    + split; [intros []|]. intros [[= -> ->]|[|[-> _]]]; lia.
    + assert (c1 = c2) as -> by lia. rewrite IH. split.
      * intros [->|Hl]; auto.
      * intros [[= ->]|[|[_ Hl]]]; auto. lia.
Qed.

#[global] Instance row_le_total (i : nat) : Total (row_le i).
Proof.
  intros r1 r2. unfold row_le, str_le.
  destruct (str_leb_total (key_at i r1) (key_at i r2)) as [->| ->]; simpl; auto.
Qed.

#[global] Instance row_le_trans (i : nat) : Transitive (row_le i).
Proof.
  intros r1 r2 r3. unfold row_le, str_le. intros H1%Is_true_true H2%Is_true_true.
  apply Is_true_true. eauto using str_leb_trans.
Qed.


(** ** Worksheets *)

Lemma ws_append_lookup (ws : nat) (row : list value) (wb : workbook) (sh : worksheet) :
  wb !! ws = Some sh ->
  ws_append ws row wb !! ws = Some (Worksheet (title sh) (cells sh ++ [row])).
Proof. intros H. unfold ws_append. now rewrite list_lookup_alter_eq, H. Qed.

Lemma ws_append_all_lookup (ws : nat) (rs : list (list value)) (wb : workbook)
    (sh : worksheet) :
  wb !! ws = Some sh ->
  ws_append_all ws rs wb !! ws = Some (Worksheet (title sh) (cells sh ++ rs)).
Proof.
  unfold ws_append_all. revert wb sh.
  induction rs as [|r rs IH]; intros wb sh H; simpl.
  - rewrite app_nil_r. now destruct sh.
  - erewrite IH by (apply ws_append_lookup, H). simpl.
    now rewrite <- app_assoc.
Qed.

Lemma ws_append_all_other (ws j : nat) (rs : list (list value)) (wb : workbook) :
  j <> ws -> ws_append_all ws rs wb !! j = wb !! j.
Proof.
  intros Hj. unfold ws_append_all. revert wb.
  induction rs as [|r rs IH]; intros wb; simpl; [done|].
  rewrite IH. unfold ws_append. apply list_lookup_alter_ne. congruence.
Qed.

Lemma ws_append_all_length (ws : nat) (rs : list (list value)) (wb : workbook) :
  length (ws_append_all ws rs wb) = length wb.
Proof.
  unfold ws_append_all. revert wb.
  induction rs as [|r rs IH]; intros wb; simpl; [done|].
  rewrite IH. unfold ws_append. apply length_alter.
Qed.

(** Appending to the sheet that was created last. *)
Lemma ws_append_all_last (rs : list (list value)) (wb : workbook) (sh : worksheet) :
  ws_append_all (length wb) rs (wb ++ [sh])
  = wb ++ [Worksheet (title sh) (cells sh ++ rs)].
Proof.
  apply list_eq. intros j.
  destruct (decide (j = length wb)) as [->|Hj].
  - rewrite (ws_append_all_lookup _ _ _ sh) by apply list_lookup_middle, eq_refl.
    symmetry. now apply list_lookup_middle.
  - rewrite ws_append_all_other by done.
    destruct (decide (j < length wb)).
    + now rewrite !lookup_app_l by done.
    + rewrite !lookup_ge_None_2; [done|simpl|simpl]; rewrite length_app; simpl; lia.
Qed.

(** ** Files and storage *)

Lemma read_ok_present (fs : storage) (p : str) (encs : list encoding) (content : str) :
  read_file_with_multiple_encodings fs p encs = Ok content -> is_Some (fs !! p).
Proof.
  induction encs as [|e encs IH]; simpl; [discriminate|].
  unfold open_read at 1. destruct (fs !! p); [eauto|discriminate].
Qed.

(** The reader looks at one file only. *)
Lemma read_same_file (fs fs' : storage) (p : str) (encs : list encoding) :
  fs !! p = fs' !! p ->
  read_file_with_multiple_encodings fs p encs
  = read_file_with_multiple_encodings fs' p encs.
Proof.
  intros H. induction encs as [|e encs IH]; simpl; [done|].
  unfold open_read. rewrite H, IH. reflexivity.
Qed.

Lemma os_remove_present (p : str) (st : state) :
  is_Some (st_fs st !! p) ->
  os_remove p st = (State (st_wb st) (st_summary st) (delete p (st_fs st)), Normal).
Proof. intros [bs H]. unfold os_remove. now rewrite H. Qed.

(** ** Syslog and text logs: the rows of one file *)




(** ** Files without a match *)

Lemma yields_no_match_same_file (f : log_format) (fs fs' : storage) (p : str) :
  fs !! p = fs' !! p -> yields_no_match f fs p -> yields_no_match f fs' p.
Proof.
  intros H (content & Hr & Hev). exists content. split; [|done].
  now rewrite <- (read_same_file fs fs' p _ H).
Qed.

(** Such a file leaves the workbook and the summary as they were; it is
    only removed. *)
Lemma no_match_file (f : log_format) (ws index : nat) (p : str) (st : state) :
  yields_no_match f (st_fs st) p ->
  format_file f ws index p st
  = (State (st_wb st) (st_summary st) (delete p (st_fs st)), Normal).
Proof.
  intros (content & Hread & Hev).
  pose proof (read_ok_present _ _ _ _ Hread) as Hfile.
  destruct f; simpl in Hev; simpl; unfold html_file, html_try, log_file, log_try;
    rewrite Hread; unfold bind; rewrite Hev; now apply os_remove_present.
Qed.

Lemma no_match_loop (f : log_format) (ws : nat) (paths : list str) :
  forall (index : nat) (st : state),
    NoDup paths ->
    (forall q, q ∈ paths -> yields_no_match f (st_fs st) q) ->
    exists fs',
      for_files (format_file f ws) index paths st
      = (State (st_wb st) (st_summary st) fs', Normal).
Proof.
  induction paths as [|p rest IH]; intros index st Hnd Hall; simpl.
  - exists (st_fs st). now destruct st.
  - apply NoDup_cons in Hnd as [Hp Hnd].
    rewrite no_match_file by (apply Hall; set_solver).
    destruct (IH (S index)
                (State (st_wb st) (st_summary st) (delete p (st_fs st))) Hnd)
      as [fs' Hfs']; [|eauto].
    intros q Hq. simpl.
    apply (yields_no_match_same_file f (st_fs st)); [|apply Hall; set_solver].
    symmetry. apply lookup_delete_ne. intros ->. contradiction.
Qed.

Lemma create_sheet_with_header (t : str) (hdr : list value) (wb : workbook) :
  ws_append (length wb) hdr (wb ++ [Worksheet t []]) = wb ++ [Worksheet t [hdr]].
Proof. apply (ws_append_all_last [hdr] wb (Worksheet t [])). Qed.

(** C6.  A file in which the pattern matches nowhere adds no row and no
    summary entry, and a batch of such files leaves a sheet that holds the
    header row alone. *)
Theorem zero_match_contributes_nothing
    (f : log_format) (st : state) (ws index : nat) (p : str) (paths : list str) :
  yields_no_match f (st_fs st) p ->
  NoDup paths ->
  (forall q, q ∈ paths -> yields_no_match f (st_fs st) q) ->
  format_file f ws index p st
    = (State (st_wb st) (st_summary st) (delete p (st_fs st)), Normal)
  /\ exists fs',
       process_format f paths st
       = (State
            (st_wb st ++ [Worksheet (format_title f) [str_cells (format_header f)]])
            (st_summary st) fs',
          Normal).
Proof.
  intros Hp Hnd Hall. split; [now apply no_match_file|].
  destruct f; simpl; unfold process_html_files, process_log_files, create_sheet;
    rewrite create_sheet_with_header.
  - apply (no_match_loop HtmlEvent (length (st_wb st)) paths 1 (State _ _ _) Hnd Hall).
  - apply (no_match_loop Syslog (length (st_wb st)) paths 1 (State _ _ _) Hnd Hall).
Qed.

Lemma zero_match_contributes_nothing_witness :
  format_file HtmlEvent 0 1 sample_empty_path sample_empty_state
    = (State [] [] (delete sample_empty_path (st_fs sample_empty_state)), Normal)
  /\ exists fs',
       process_format HtmlEvent [sample_empty_path; sample_other_path]
         sample_empty_state
       = (State [Worksheet (txt "Output_event_log") [str_cells html_header]] [] fs',
          Normal).
Proof.
  apply (zero_match_contributes_nothing HtmlEvent sample_empty_state 0 1
           sample_empty_path [sample_empty_path; sample_other_path]).
  - eexists. split; vm_compute; reflexivity.
  - apply (bool_decide_unpack _). vm_compute. exact I.
  - intros q Hq. apply list_elem_of_In in Hq.
    destruct Hq as [<-|[<-|[]]]; eexists; split; vm_compute; reflexivity.
Defined.


(** ** Evaluations *)

(** C1.  On the export with entries 12 and 3 the sheet gets the row of
    entry 12 first: [sort_values] compares the ids as text, and as text
    "12" comes before "3".  Numeric order would put entry 3 first. *)
Theorem html_entry_ids_sorted_as_text :
  process_html_files [sample_html_path] sample_html_state
  = (State
       [Worksheet (txt "Output_event_log")
          [str_cells html_header;
           str_cells (txt <$> ["10.0.0.1"; "RTR-1"; "12"; "01.02.24"; "10:00:00";
                               "ERR"; "0x12"; "taskA"; "main.c"; "77"; "p1"]%string);
           str_cells (txt <$> ["10.0.0.1"; "RTR-1"; "3"; "01.02.24"; "09:00:00";
                               "WARN"; "0x01"; "taskB"; "util.c"; "5"; "p2"]%string)]]
       [[VInt 1; VStr (txt "rtr1.html"); VStr (txt "10.0.0.1"); VStr (txt "RTR-1")]]
       ∅,
     Normal).
Proof. vm_compute. reflexivity. Qed.


(** ** Temporary files *)

(** The pattern-based drivers remove every file they turn to. *)
Lemma os_remove_gone (p : str) (st st' : state) (o : outcome) :
  os_remove p st = (st', o) -> st_fs st' !! p = None.
Proof.
  unfold os_remove. destruct (st_fs st !! p) eqn:Hp; intros [= <- <-]; simpl.
  - apply lookup_delete_eq.
  - exact Hp.
Qed.

Lemma format_file_removes (f : log_format) (ws index : nat) (p : str)
    (st st' : state) (o : outcome) :
  format_file f ws index p st = (st', o) -> st_fs st' !! p = None.
Proof. destruct f; simpl; unfold html_file, log_file; apply os_remove_gone. Qed.

(** The JSON-line drivers never touch the storage. *)
Lemma process_link_files_keeps_storage
    (json_loads : str -> option dict) (enc : encoding)
    (file_paths : list str) (st : state) :
  st_fs (process_link_files json_loads enc file_paths st).1 = st_fs st.
Proof.
  unfold process_link_files, create_sheet. simpl.
  destruct (collect_link_items _ _ _ _) as [[|d ds]|e]; simpl; try reflexivity.
  destruct (ordered_frame _); reflexivity.
Qed.

Lemma process_equipment_files_keeps_storage
    (json_loads : str -> option dict) (py_str : value -> str) (enc : encoding)
    (limit : nat) (file_paths : list str) (st : state) (r : state * outcome) :
  process_equipment_files_with json_loads py_str enc limit file_paths st = Some r ->
  st_fs r.1 = st_fs st.
Proof.
  unfold process_equipment_files_with, create_sheet.
  destruct (collect_equipment_items _ _ _ _ _) as [[[|d ds] n]|e];
    try (intros [= <-]; reflexivity).
  destruct (ordered_frame _) as [df|e]; try (intros [= <-]; reflexivity).
  destruct (paginate _ _ _ _ _ _); cbn -[paginate]; [|discriminate].
  intros [= <-]. reflexivity.
Qed.

(** C2.  After [process_link_files] and [process_equipment_files] have
    returned, the files they read are still in storage: neither driver
    calls [os.remove], unlike the HTML and syslog drivers. *)
Theorem json_feed_files_are_not_removed :
  (let r := process_link_files sample_json_loads Utf8 [sample_link_path]
              sample_feed_state in
   r.2 = Normal /\
   st_fs r.1 !! sample_link_path = Some (ascii_bytes sample_link_line))
  /\ (exists r,
        process_equipment_files sample_json_loads sample_py_str Utf8
          [sample_equipment_path] sample_feed_state = Some r /\
        r.2 = Normal /\
        is_Some (st_fs r.1 !! sample_equipment_path)).
Proof.
  split.
  - vm_compute. split; reflexivity.
  - eexists. split; [vm_compute; reflexivity|]. split; [reflexivity|].
    vm_compute. eauto.
Qed.

(** ** Dictionaries *)

Lemma dict_get_set_eq (k : str) (v : value) (d : dict) :
  dict_get k (dict_set k v d) = Some v.
Proof.
  induction d as [|[k' v'] d IH]; simpl.
  - now rewrite decide_True.
  - destruct (decide (k' = k)) as [->|Hne]; simpl.
    + now rewrite decide_True.
    + now rewrite decide_False.
Qed.

Lemma dict_get_set_ne (k k' : str) (v : value) (d : dict) :
  k <> k' -> dict_get k' (dict_set k v d) = dict_get k' d.
Proof.
  intros Hne. induction d as [|[k0 v0] d IH]; simpl.
  - now rewrite decide_False.
  - destruct (decide (k0 = k)) as [->|Hk0]; simpl.
    + now rewrite !decide_False.
    + now rewrite IH.
Qed.

Lemma dict_get_del_ne (k k' : str) (d : dict) :
  k <> k' -> dict_get k' (dict_del k d) = dict_get k' d.
Proof.
  intros Hne. induction d as [|[k0 v0] d IH]; simpl; [done|].
  destruct (decide (k0 = k)) as [->|Hk0]; simpl.
  - now rewrite decide_False.
  - now rewrite IH.
Qed.

Lemma dict_del_absent (k : str) (d : dict) :
  dict_get k d = None -> dict_del k d = d.
Proof.
  induction d as [|[k0 v0] d IH]; simpl; [done|].
  destruct (decide (k0 = k)); [discriminate|]. intros H. now rewrite IH.
Qed.

Lemma dict_pop_rest (k : str) (dflt : value) (d : dict) :
  (dict_pop k dflt d).2 = dict_del k d.
Proof.
  unfold dict_pop. destruct (dict_get k d) eqn:H; simpl; [done|].
  now rewrite dict_del_absent.
Qed.

Lemma dict_get_keys (k : str) (d : dict) :
  is_Some (dict_get k d) <-> k ∈ d.*1.
Proof.
  induction d as [|[k0 v0] d IH]; simpl.
  - split; [intros [? [=]]|intros H; inversion H].
  - destruct (decide (k0 = k)) as [->|Hne].
    + split; [intros _; left|eauto].
    + rewrite IH. split; [now right|].
      intros [->|H]%elem_of_cons; [contradiction|done].
Qed.

Lemma dict_del_keys (k k' : str) (d : dict) :
  k' ∈ (dict_del k d).*1 -> k' ∈ d.*1.
Proof.
  induction d as [|[k0 v0] d IH]; simpl; [done|].
  destruct (decide (k0 = k)); simpl.
  - now right.
  - intros [->|H]%elem_of_cons; [left|right; auto].
Qed.

Lemma dict_del_NoDup (k : str) (d : dict) : NoDup d.*1 -> NoDup (dict_del k d).*1.
Proof.
  induction d as [|[k0 v0] d IH]; simpl; [done|].
  intros [Hk0 Hd]%NoDup_cons. destruct (decide (k0 = k)); simpl; [done|].
  apply NoDup_cons. split; [|auto]. intros H%dict_del_keys. contradiction.
Qed.

(** A key [other] does not have keeps its value through [update]. *)
Lemma dict_get_update_absent (k : str) (d other : dict) :
  dict_get k other = None -> dict_get k (dict_update d other) = dict_get k d.
Proof.
  unfold dict_update. revert d.
  induction other as [|[k0 v0] other IH]; intros d; simpl; [done|].
  destruct (decide (k0 = k)) as [->|Hne]; [discriminate|].
  intros H. rewrite IH by done. now apply dict_get_set_ne.
Qed.

(** A key [other] has takes the value [other] gives it. *)
Lemma dict_get_update_present (k : str) (v : value) (d other : dict) :
  NoDup other.*1 ->
  dict_get k other = Some v -> dict_get k (dict_update d other) = Some v.
Proof.
  unfold dict_update. revert d.
  induction other as [|[k0 v0] other IH]; intros d; simpl; [discriminate|].
  intros [Hk0 Hnd]%NoDup_cons.
  destruct (decide (k0 = k)) as [->|Hne].
  - intros [= ->].
    assert (dict_get k other = None) as Habs.
    { destruct (dict_get k other) eqn:Hg; [|done].
      exfalso. apply Hk0, dict_get_keys. eauto. }
    rewrite (dict_get_update_absent k _ other Habs). apply dict_get_set_eq.
  - intros H. now apply IH.
Qed.

Lemma dict_update_has (k : str) (d other : dict) :
  is_Some (dict_get k other) -> is_Some (dict_get k (dict_update d other)).
Proof.
  unfold dict_update. revert d.
  induction other as [|[k0 v0] other IH]; intros d; simpl; [intros [? [=]]|].
  destruct (decide (k0 = k)) as [->|Hne]; [|now apply IH]. intros _.
  destruct (dict_get k other) eqn:Hg.
  - apply IH. eauto.
  - rewrite (dict_get_update_absent k _ other Hg), dict_get_set_eq. eauto.
Qed.

(** ** Loops that collect *)

Lemma for_each_invariant {A S : Type} (f : S -> A -> result S) (I : S -> Prop)
    (l : list A) :
  (forall s x s', I s -> f s x = Ok s' -> I s') ->
  forall s s', I s -> for_each f l s = Ok s' -> I s'.
Proof.
  intros Hstep. induction l as [|x l IH]; intros s s' Hs; simpl.
  - now intros [= <-].
  - destruct (f s x) as [s1|e] eqn:Hf; simpl; [|discriminate]. eauto.
Qed.

(** A loop that appends [g x] for every [x] computes a [map]. *)
Lemma for_each_append_map {A B : Type} (f : A -> result B) (g : A -> B)
    (l : list A) (acc : list B) :
  (forall x, x ∈ l -> f x = Ok (g x)) ->
  for_each (fun acc x => let! y := f x in Ok (acc ++ [y])) l acc
  = Ok (acc ++ (g <$> l)).
Proof.
  revert acc. induction l as [|x l IH]; intros acc Hf; simpl.
  - now rewrite app_nil_r.
  - rewrite Hf by left. simpl. rewrite IH by (intros; apply Hf; now right).
    now rewrite <- app_assoc.
Qed.

(** ** Inheritance of the parent's fields *)

Lemma merge_parent_dicts (parent : dict) (items : list dict) :
  merge_parent parent (VDict <$> items)
  = Ok ((fun item => dict_update item parent) <$> items).
Proof.
  unfold merge_parent.
  rewrite (for_each_append_map (fun item => item_update item parent)
             (fun item => match item with
                          | VDict d => dict_update d parent
                          | _ => []
                          end)).
  - simpl. f_equal. rewrite <- list_fmap_compose. reflexivity.
  - intros x (d & -> & _)%list_elem_of_fmap. reflexivity.
Qed.

Lemma flatten_items_dicts (py_str : value -> str) (items : list dict) :
  flatten_items py_str (VList (VDict <$> items))
  = Ok (VDict <$> (flattened py_str <$> items)).
Proof.
  unfold flatten_items. simpl.
  rewrite (for_each_append_map (flatten_item py_str)
             (fun item => match item with
                          | VDict d => VDict (flattened py_str d)
                          | other => other
                          end)).
  - simpl. f_equal. rewrite <- !list_fmap_compose. reflexivity.
  - intros x (d & -> & _)%list_elem_of_fmap. unfold flatten_item, flattened.
    now destruct (dict_get _ d).
Qed.

(** C10.  When a key of an item is also a key of what is left of the
    payload once [items] is popped (the payload's own fields, [Date] and
    [Time] among them), the record built from the item carries the
    payload's value for that key. *)
Theorem parent_fields_overwrite_item_fields
    (py_str : value -> str) (k : feed) (data parent : dict)
    (items : list dict) (i : nat) (item : dict) (key : str)
    (own inherited : value) :
  NoDup data.*1 ->
  dict_pop (txt "items") (VList []) data = (VList (VDict <$> items), parent) ->
  items !! i = Some item ->
  dict_get key item = Some own ->
  dict_get key parent = Some inherited ->
  exists (records : list dict) (record : dict),
    feed_payload_items py_str k data = Ok records /\
    records !! i = Some record /\
    dict_get key record = Some inherited.
Proof.
  intros Hnd Hpop Hi Hown Hinh.
  assert (NoDup parent.*1) as Hnd'.
  { replace parent with (dict_pop (txt "items") (VList []) data).2
      by now rewrite Hpop.
    rewrite dict_pop_rest. now apply dict_del_NoDup. }
  destruct k; simpl; unfold link_payload_items, equipment_payload_items;
    rewrite Hpop.
  - simpl. rewrite merge_parent_dicts.
    eexists _, (dict_update item parent). split; [reflexivity|].
    split; [now rewrite list_lookup_fmap, Hi|].
    now apply dict_get_update_present.
  - assert (truthy (VList (VDict <$> items)) = true) as ->.
    { destruct items; [now rewrite lookup_nil in Hi|reflexivity]. }
    rewrite flatten_items_dicts. unfold bind. rewrite merge_parent_dicts.
    eexists _, (dict_update (flattened py_str item) parent).
    split; [reflexivity|].
    split; [now rewrite !list_lookup_fmap, Hi|].
    now apply dict_get_update_present.
Qed.

Lemma parent_fields_overwrite_item_fields_witness :
  exists (records : list dict) (record : dict),
    feed_payload_items sample_py_str LinkStatus sample_shadowing_payload
      = Ok records /\
    records !! 0 = Some record /\
    dict_get (txt "node") record = Some (VStr (txt "X")).
Proof.
  apply (parent_fields_overwrite_item_fields sample_py_str LinkStatus
           sample_shadowing_payload
           [(txt "node", VStr (txt "X")); (txt "Date", VStr (txt "2024-01-01"));
            (txt "Time", VStr (txt "10:00:00"))]
           [[(txt "a", VInt 1); (txt "node", VStr (txt "own"))]]
           0 [(txt "a", VInt 1); (txt "node", VStr (txt "own"))]
           (txt "node") (VStr (txt "own")) (VStr (txt "X"))).
  - apply (bool_decide_unpack _). vm_compute. exact I.
  - vm_compute. reflexivity.
  - reflexivity.
  - vm_compute. reflexivity.
  - vm_compute. reflexivity.
Defined.

(** ** Every collected record has [Date] and [Time] *)

Lemma has_date_time_set (date time : value) (data : dict) :
  has_date_time (dict_set (txt "Time") time (dict_set (txt "Date") date data)).
Proof.
  split.
  - rewrite dict_get_set_ne by (vm_compute; discriminate).
    rewrite dict_get_set_eq. eauto.
  - rewrite dict_get_set_eq. eauto.
Qed.

Lemma link_line_date_time (json_loads : str -> option dict) (line : str)
    (found : list dict) :
  link_line json_loads line = Ok found -> Forall has_date_time found.
Proof.
  unfold link_line.
  destruct (Re.search _ _); [|intros [= <-]; constructor].
  destruct (Re.match_ _ _) as [m|]; [|intros [= <-]; constructor].
  destruct (split_on _ _) as [|date [|time [|]]]; try discriminate.
  destruct (json_loads _); intros [= <-]; repeat constructor;
    apply has_date_time_set.
Qed.

Lemma equipment_line_date_time (json_loads : str -> option dict) (line : str)
    (found : list dict) :
  equipment_line json_loads line = Ok found -> Forall has_date_time found.
Proof.
  unfold equipment_line.
  destruct (Re.search _ _); [|intros [= <-]; constructor].
  destruct (json_loads _) as [data|]; [|intros [= <-]; constructor].
  destruct (dict_get _ data) as [v|]; [|intros [= <-]; constructor].
  destruct (value_split v _) as [[|date [|time [|]]]|]; simpl; try discriminate.
  intros [= <-]. repeat constructor; apply has_date_time_set.
Qed.

Lemma extract_lines_forall (per_line : str -> result (list dict))
    (P : dict -> Prop) (lines : list str) (json_list : list dict) :
  (forall line found, per_line line = Ok found -> Forall P found) ->
  extract_lines per_line lines = Ok json_list -> Forall P json_list.
Proof.
  intros Hline. unfold extract_lines.
  apply (for_each_invariant _ (Forall P)); [|constructor].
  intros s x s' Hs. destruct (per_line x) as [found|] eqn:Hx; simpl; [|discriminate].
  intros [= <-]. apply Forall_app. eauto.
Qed.

Lemma merge_parent_date_time (parent : dict) (items : list value)
    (merged : list dict) :
  has_date_time parent ->
  merge_parent parent items = Ok merged -> Forall has_date_time merged.
Proof.
  intros [Hd Ht]. unfold merge_parent.
  apply (for_each_invariant _ (Forall has_date_time)); [|constructor].
  intros s x s' Hs. destruct x; simpl; try discriminate.
  intros [= <-]. apply Forall_app. split; [done|].
  repeat constructor; now apply dict_update_has.
Qed.

Lemma pop_items_date_time (data : dict) :
  has_date_time data ->
  has_date_time (dict_pop (txt "items") (VList []) data).2.
Proof.
  intros [Hd Ht]. rewrite dict_pop_rest. split;
    (rewrite dict_get_del_ne by (vm_compute; discriminate); assumption).
Qed.

Lemma feed_payload_date_time (py_str : value -> str) (k : feed) (data : dict)
    (found : list dict) :
  has_date_time data ->
  feed_payload_items py_str k data = Ok found -> Forall has_date_time found.
Proof.
  intros Hdata%pop_items_date_time.
  destruct k; simpl; unfold link_payload_items, equipment_payload_items;
    destruct (dict_pop _ _ data) as [items parent]; simpl in Hdata.
  - destruct (iterate items) as [its|]; simpl; [|discriminate].
    now apply merge_parent_date_time.
  - destruct (truthy items); [|intros [= <-]; constructor].
    destruct (flatten_items py_str items) as [its|]; simpl; [|discriminate].
    now apply merge_parent_date_time.
Qed.

Lemma collect_payloads_date_time (py_str : value -> str) (k : feed)
    (json_data all_items collected : list dict) :
  Forall has_date_time json_data ->
  Forall has_date_time all_items ->
  collect_payloads (feed_payload_items py_str k) json_data all_items = Ok collected ->
  Forall has_date_time collected.
Proof.
  unfold collect_payloads. revert all_items.
  induction json_data as [|data rest IH]; intros all_items Hdata Hall; simpl.
  - now intros [= <-].
  - apply Forall_cons in Hdata as [Hd Hrest].
    destruct (feed_payload_items py_str k data) as [found|] eqn:Hf; simpl;
      [|discriminate].
    apply IH; [done|]. apply Forall_app. split; [done|].
    eapply feed_payload_date_time; eauto.
Qed.

Lemma feed_records_date_time (json_loads : str -> option dict)
    (py_str : value -> str) (enc : encoding) (k : feed) (fs : storage)
    (file_paths : list str) (all_items : list dict) :
  feed_records json_loads py_str enc k fs file_paths = Ok all_items ->
  Forall has_date_time all_items.
Proof.
  destruct k; simpl.
  - unfold collect_link_items.
    apply (for_each_invariant _ (Forall has_date_time)); [|constructor].
    intros s p s' Hs. unfold extract_link_data.
    destruct (read_lines enc fs p) as [lines|]; simpl; [|discriminate].
    destruct (extract_lines _ lines) as [json_data|] eqn:He; simpl; [|discriminate].
    apply (collect_payloads_date_time py_str LinkStatus); [|done].
    eapply extract_lines_forall; [|exact He]. apply link_line_date_time.
  - destruct (collect_equipment_items _ _ _ _ _) as [[items n]|] eqn:Hc; simpl;
      [|discriminate].
    intros [= <-]. change (Forall has_date_time (items, n).1).
    revert Hc. unfold collect_equipment_items.
    apply (for_each_invariant _ (fun acc => Forall has_date_time acc.1));
      [|constructor].
    intros [s m] p s' Hs. unfold extract_equipment_data.
    destruct (read_lines enc fs p) as [lines|]; simpl; [|discriminate].
    destruct (extract_lines _ lines) as [json_data|] eqn:He; simpl; [|discriminate].
    destruct (collect_payloads _ json_data s) as [c|] eqn:Hcp; simpl; [|discriminate].
    intros [= <-]. simpl.
    apply (collect_payloads_date_time py_str EquipmentStatus json_data s); [|done|done].
    eapply extract_lines_forall; [|exact He]. apply equipment_line_date_time.
Qed.

(** ** The frame of the collected records *)

Lemma add_key_elem (acc : list str) (k k' : str) :
  k' ∈ add_key acc k <-> k' ∈ acc \/ k' = k.
Proof.
  unfold add_key. destruct (decide (k ∈ acc)).
  - split; [auto|]. intros [?| ->]; done.
  - rewrite elem_of_app, list_elem_of_singleton. reflexivity.
Qed.

Lemma add_keys_elem (ks acc : list str) (k : str) :
  k ∈ foldl add_key acc ks <-> k ∈ acc \/ k ∈ ks.
Proof.
  revert acc. induction ks as [|k0 ks IH]; intros acc; simpl.
  - split; [auto|]. intros [|H]; [done|inversion H].
  - rewrite IH, add_key_elem, elem_of_cons. tauto.
Qed.

Lemma union_keys_elem (records : list dict) (k : str) (r : dict) :
  r ∈ records -> k ∈ r.*1 -> k ∈ union_keys records.
Proof.
  unfold union_keys. generalize (@nil str) as acc.
  induction records as [|r0 records IH]; intros acc Hr Hk; simpl.
  - inversion Hr.
  - apply elem_of_cons in Hr as [->|Hr]; [|now apply IH].
    assert (k ∈ foldl add_key acc r0.*1) as Hin by (apply add_keys_elem; auto).
    clear -Hin. revert Hin. generalize (foldl add_key acc r0.*1) as acc'.
    induction records as [|r1 records IH]; intros acc' Hin; simpl; [done|].
    apply IH, add_keys_elem. auto.
Qed.

Lemma column_index_present (name : str) (cols : list str) :
  name ∈ cols -> is_Some (column_index name cols).
Proof.
  intros H. unfold column_index.
  destruct (list_find_elem_of (fun c => c = name) cols name H eq_refl) as [x ->].
  simpl. eauto.
Qed.

(** A non-empty batch of records with [Date] and [Time] always gives a
    frame: the two columns exist, and there is one row per record. *)
Lemma ordered_frame_ok (all_items : list dict) :
  all_items <> [] ->
  Forall has_date_time all_items ->
  exists (cols : list str) (table : list (list value)),
    ordered_frame all_items
      = Ok (Frame (txt "Date" :: txt "Time" :: cols) table) /\
    length table = length all_items.
Proof.
  intros Hne Hall. unfold ordered_frame, select_columns.
  set (df := DataFrame_of_records all_items).
  set (others := filter (fun col => col ∉ [txt "Date"; txt "Time"]) (columns df)).
  destruct (mapM (M := option)
              (fun n => column_index n (columns df))
              ([txt "Date"; txt "Time"] ++ others)) as [idx|] eqn:Hidx.
  - exists others. eexists. split; [reflexivity|].
    unfold df, DataFrame_of_records. simpl. now rewrite !length_fmap.
  - exfalso.
    assert (is_Some (mapM (M := option)
                       (fun n => column_index n (columns df))
                       ([txt "Date"; txt "Time"] ++ others))) as [? Hs];
      [|congruence].
    apply mapM_is_Some_2.
    destruct all_items as [|d ds]; [done|].
    apply Forall_cons in Hall as [[Hd Ht] _].
    apply Forall_app. split.
    + repeat constructor; simpl; apply column_index_present;
        apply (union_keys_elem (d :: ds) _ d); try left; now apply dict_get_keys.
    + apply Forall_forall. intros x [_ Hx]%list_elem_of_filter.
      now apply column_index_present.
Qed.

(** ** Pagination *)

Lemma append_capped_fits (limit ws : nat) (rs : list (list value)) :
  forall (row_count : nat) (wb : workbook),
    row_count + length rs <= limit ->
    append_capped limit ws rs row_count wb
    = (ws_append_all ws rs wb, row_count + length rs).
Proof.
  induction rs as [|r rs IH]; intros row_count wb Hfit; simpl.
  - f_equal. lia.
  - simpl in Hfit. destruct (Nat.leb_spec limit row_count); [lia|].
    rewrite IH by lia. f_equal. lia.
Qed.

(** On a fresh sheet the header goes first, then the rows. *)
Lemma add_data_fresh (limit ws : nat) (cols : list str)
    (rs : list (list value)) (wb : workbook) :
  length rs <= limit ->
  add_data_to_sheet limit ws (Frame cols rs) 0 wb
  = (ws_append_all ws (str_cells cols :: rs) wb, length rs).
Proof.
  intros Hfit. unfold add_data_to_sheet, dataframe_to_rows. simpl.
  now rewrite append_capped_fits by (simpl; lia).
Qed.

Lemma take_min_length {A} (n : nat) (l : list A) :
  take (n `min` length l) l = take n l.
Proof.
  destruct (Nat.le_ge_cases n (length l)).
  - now rewrite Nat.min_l.
  - rewrite Nat.min_r by done. now rewrite !take_ge.
Qed.

Lemma drop_min_length {A} (n : nat) (l : list A) :
  drop (n `min` length l) l = drop n l.
Proof.
  destruct (Nat.le_ge_cases n (length l)).
  - now rewrite Nat.min_l.
  - rewrite Nat.min_r by done. now rewrite !drop_ge.
Qed.

Lemma frame_not_empty {A} (cols : list str) (rs : list (list A)) :
  cols <> [] -> rs <> [] -> frame_empty (Frame cols rs) = false.
Proof.
  intros Hc Hr. unfold frame_empty. simpl.
  now rewrite !bool_decide_eq_false_2.
Qed.

Lemma paginate_done (fuel limit : nat) (cols : list str) (ws row_count : nat)
    (wb : workbook) :
  paginate (S fuel) limit (Frame cols []) ws row_count wb = Some wb.
Proof. reflexivity. Qed.

(** A turn of the loop that starts on an empty sheet. *)
Lemma paginate_fresh (fuel limit : nat) (cols : list str)
    (rs : list (list value)) (ws : nat) (wb : workbook) :
  0 < limit -> cols <> [] -> rs <> [] ->
  paginate (S fuel) limit (Frame cols rs) ws 0 wb
  = paginate fuel limit (Frame cols (drop limit rs)) ws
      (limit `min` length rs)
      (ws_append_all ws (str_cells cols :: take limit rs) wb).
Proof.
  intros Hl Hc Hr. cbn [paginate]. rewrite frame_not_empty by done.
  destruct (Nat.leb_spec limit 0); [lia|]. cbn [rows columns].
  rewrite Nat.sub_0_r, take_min_length, drop_min_length.
  rewrite add_data_fresh by (rewrite length_take; lia).
  now rewrite length_take.
Qed.

(** A turn of the loop that finds the sheet full: a new sheet is made. *)
Lemma paginate_full (fuel limit : nat) (cols : list str)
    (rs : list (list value)) (ws : nat) (wb : workbook) :
  0 < limit -> cols <> [] -> rs <> [] ->
  paginate (S fuel) limit (Frame cols rs) ws limit wb
  = paginate fuel limit (Frame cols (drop limit rs)) (length wb)
      (limit `min` length rs)
      (wb ++ [Worksheet (sheet_title (length wb + 1))
                (str_cells cols :: take limit rs)]).
Proof.
  intros Hl Hc Hr. cbn [paginate]. rewrite frame_not_empty by done.
  rewrite Nat.leb_refl. unfold create_sheet. cbn [rows columns].
  rewrite Nat.sub_0_r, take_min_length, drop_min_length.
  rewrite add_data_fresh by (rewrite length_take; lia).
  now rewrite length_take, ws_append_all_last.
Qed.


Lemma columns_per_sheet_positive : 5 <= columns_per_sheet.
Proof. unfold columns_per_sheet. lia. Qed.


(** A table of [2 * limit + 5] rows is laid out on three sheets: the one
    at hand, and two that the loop creates. *)
Lemma paginate_three_sheets (limit : nat) (header : list str)
    (table : list (list value)) (t : str) (wb : workbook) :
  5 <= limit -> header <> [] -> length table = 2 * limit + 5 ->
  paginate (S (length table)) limit (Frame header table) (length wb) 0
    (wb ++ [Worksheet t []])
  = Some
      (wb ++ [Worksheet t (str_cells header :: take limit table);
              Worksheet (sheet_title (length wb + 2))
                (str_cells header :: take limit (drop limit table));
              Worksheet (sheet_title (length wb + 3))
                (str_cells header :: drop limit (drop limit table))]).
Proof.
  intros Hlimit Hh Htable.
  set (r3 := drop limit (drop limit table)).
  assert (length r3 = 5) as H3 by (unfold r3; rewrite !length_drop; lia).
  replace (S (length table)) with (S (S (S (S (2 * limit + 2))))) by lia.
  rewrite paginate_fresh; [|lia|done|intros ->; simpl in Htable; lia].
  rewrite ws_append_all_last. cbn [title cells app].
  replace (limit `min` length table) with limit by lia.
  rewrite paginate_full;
    [|lia|done|intros Hd; apply (f_equal length) in Hd;
               rewrite length_drop in Hd; simpl in Hd; lia].
  replace (limit `min` length (drop limit table)) with limit
    by (rewrite length_drop; lia).
  rewrite paginate_full;
    [|lia|done|fold r3; intros Hd; rewrite Hd in H3; simpl in H3; lia].
  fold r3. rewrite (drop_ge r3), (take_ge r3) by lia.
  rewrite paginate_done.
  rewrite !length_app. cbn [length].
  rewrite <- !app_assoc. cbn [app].
  replace (length wb + 1 + 1) with (length wb + 2) by lia.
  replace (length wb + 2 + 1) with (length wb + 3) by lia.
  reflexivity.
Qed.


(** With the program's own limit the same batch gives sheets of 1000000,
    1000000 and 5 rows. *)
Lemma equipment_pagination_default
    (json_loads : str -> option dict) (py_str : value -> str) (enc : encoding)
    (file_paths : list str) (st : state) (all_items : list dict) (n : nat) :
  collect_equipment_items json_loads py_str enc (st_fs st) file_paths
    = Ok (all_items, n) ->
  length all_items = 2 * columns_per_sheet + 5 ->
  exists (wb : workbook) (summary : list (list value)),
    process_equipment_files json_loads py_str enc file_paths st
      = Some (State (st_wb st ++ wb) summary (st_fs st), Normal) /\
    (fun sheet => length (cells sheet) - 1) <$> wb
      = [columns_per_sheet; columns_per_sheet; 5].
Proof.
  intros Hcollect Hlen.
  pose proof columns_per_sheet_positive as Hlimit.
  assert (all_items <> []) as Hne by (intros ->; cbn [length] in Hlen; lia).
  assert (Forall has_date_time all_items) as Hdt.
  { apply (feed_records_date_time json_loads py_str enc EquipmentStatus
             (st_fs st) file_paths). simpl. now rewrite Hcollect. }
  destruct (ordered_frame_ok all_items Hne Hdt) as (cols & table & Hframe & Htable).
  unfold process_equipment_files, process_equipment_files_with, create_sheet.
  cbn [st_fs]. rewrite Hcollect.
  destruct all_items as [|d ds]; [contradiction|]. rewrite Hframe. cbn [rows].
  rewrite (paginate_three_sheets columns_per_sheet _ table _ _ Hlimit);
    [|discriminate|exact (eq_trans Htable Hlen)].
  eexists _, _. split; [reflexivity|].
  cbn [fmap list_fmap cells length].
  rewrite !length_take, !length_drop.
  repeat f_equal; lia.
Qed.




(** ** The timestamp of an equipment payload *)

Lemma split_on_absent (c : N) (s : str) : c ∉ s -> split_on c s = [s].
Proof.
  induction s as [|x s IH]; simpl; [done|].
  intros [Hx Hs]%not_elem_of_cons.
  destruct (N.eqb_spec x c); [congruence|]. now rewrite IH.
Qed.

Lemma split_on_first (c : N) (s r : str) :
  c ∉ s -> split_on c (s ++ c :: r) = s :: split_on c r.
Proof.
  induction s as [|x s IH]; simpl.
  - now rewrite N.eqb_refl.
  - intros [Hx Hs]%not_elem_of_cons.
    destruct (N.eqb_spec x c); [congruence|]. now rewrite IH.
Qed.

Lemma first_part_split (c : N) (s : str) :
  first_part (split_on c s) = truncate_at c s.
Proof.
  unfold first_part. induction s as [|x s IH]; simpl; [done|].
  destruct (N.eqb_spec x c); [done|].
  destruct (split_on c s) as [|w ws]; simpl in *; now rewrite <- IH.
Qed.

(** A payload without [messageSendTime] yields nothing. *)
Lemma equipment_line_untimed (json_loads : str -> option dict) (line : str)
    (data : dict) :
  json_loads (json_fragment line) = Some data ->
  dict_get (txt "messageSendTime") data = None ->
  equipment_line json_loads line = Ok [].
Proof.
  intros Hl Hk. unfold equipment_line.
  destruct (Re.search _ _); [|done]. now rewrite Hl, Hk.
Qed.

(** C4, as the program has it.  A payload without [messageSendTime] is
    dropped: the line yields no record.  A payload whose
    [messageSendTime] reads [date], [T], [time] yields one record, with
    [Date] the text before the [T] and [Time] the text after it cut at the
    first [+] and then at the first dot. *)
Theorem equipment_date_time_fields
    (json_loads : str -> option dict) (line : str) (data : dict) :
  is_Some (Re.search json_fragment_pattern line) ->
  json_loads (json_fragment line) = Some data ->
  (dict_get (txt "messageSendTime") data = None ->
   equipment_line json_loads line = Ok [])
  /\ (forall date time : str,
        dict_get (txt "messageSendTime") data
          = Some (VStr (date ++ ch "T" :: time)) ->
        ch "T" ∉ date -> ch "T" ∉ time ->
        equipment_line json_loads line
        = Ok [dict_set (txt "Time")
                (VStr (truncate_at (ch ".") (truncate_at (ch "+") time)))
                (dict_set (txt "Date") (VStr date) data)]).
Proof.
  intros [m Hm] Hl. split; [now apply equipment_line_untimed|].
  intros date time Hk Hd Ht. unfold equipment_line.
  rewrite Hm, Hl, Hk. unfold value_split, bind.
  rewrite split_on_first, split_on_absent by done.
  now rewrite !first_part_split.
Qed.

Lemma equipment_date_time_fields_witness :
  equipment_line sample_json_loads (txt "status " ++ sample_equipment_fragment)
  = Ok [dict_set (txt "Time") (VStr (txt "10:00:00"))
          (dict_set (txt "Date") (VStr (txt "2024-01-01"))
             sample_equipment_payload)].
Proof.
  destruct (equipment_date_time_fields sample_json_loads
              (txt "status " ++ sample_equipment_fragment)
              sample_equipment_payload) as [_ H].
  - vm_compute. eauto.
  - vm_compute. reflexivity.
  - apply (H (txt "2024-01-01") (txt "10:00:00.123+07:00")).
    + reflexivity.
    + apply (bool_decide_unpack _). vm_compute. exact I.
    + apply (bool_decide_unpack _). vm_compute. exact I.
Defined.

(** C4, as the claim has it, fails: this payload parses and has no
    [messageSendTime], and no record is extracted from it; the batch ends
    with an empty sheet and no summary entry. *)
Lemma untimed_payload_is_dropped :
  sample_json_loads (json_fragment sample_untimed_fragment)
    = Some sample_untimed_payload
  /\ dict_get (txt "messageSendTime") sample_untimed_payload = None
  /\ extract_equipment_data sample_json_loads Utf8 (st_fs sample_feed_state)
       sample_untimed_path = Ok []
  /\ process_equipment_files sample_json_loads sample_py_str Utf8
       [sample_untimed_path] sample_feed_state
     = Some (State [Worksheet (txt "equipment_status") []] []
               (st_fs sample_feed_state),
             Normal).
Proof. repeat split; vm_compute; reflexivity. Qed.

(** ** The matcher *)

Section MatcherFacts.
Context {R : Type}.

Lemma after_prefix_app (p s u : str) :
  Re.after_prefix p s = Some u -> s = p ++ u.
Proof.
  revert s. induction p as [|c p IH]; intros s; simpl.
  - now intros [= ->].
  - destruct s as [|x s]; [discriminate|].
    destruct (N.eqb_spec x c) as [->|]; [|discriminate].
    intros H%IH. now subst.
Qed.

Lemma lit_spec (p s : str) (k : str -> option R) :
  Re.lit p s k = match Re.after_prefix p s with
                 | Some u => k u
                 | None => None
                 end.
Proof.
  revert s. induction p as [|c p IH]; intros [|x s]; simpl; auto.
  destruct (x =? c)%N; auto.
Qed.











End MatcherFacts.


(** ** The message and the traceback of a syslog line *)



Lemma truncate_at_free (c : N) (s : str) : c ∉ truncate_at c s.
Proof.
  induction s as [|x s IH]; simpl; [apply not_elem_of_nil|].
  destruct (N.eqb_spec x c); [apply not_elem_of_nil|].
  apply not_elem_of_cons. split; [congruence|done].
Qed.















(** A traceback on the next line is captured. *)
Lemma traceback_on_the_next_line_is_captured :
  Re.findall log_pattern1 8 sample_traceback_log
  = [[txt "Mar"; txt "1"; txt "00:00:10.123"; txt "SYS"; txt "3"; txt "CPUHOG";
      txt "Task ran long"; txt " 0x1 0x2"]].
Proof. vm_compute. reflexivity. Qed.

(** ** Further properties of the drivers *)





(** X2.  The HTML and syslog drivers leave no file they turned to in storage,
    however the turn ended. *)
Theorem pattern_drivers_remove_their_files
    (f : log_format) (ws index : nat) (file_address : str) (st : state) :
  st_fs (format_file f ws index file_address st).1 !! file_address = None.
Proof.
  destruct (format_file f ws index file_address st) as [st' o] eqn:H.
  simpl. eapply format_file_removes, H.
Qed.

(** X3.  The link-status driver returns with the storage as it found it. *)
Theorem link_driver_keeps_its_files
    (json_loads : str -> option dict) (enc : encoding)
    (file_paths : list str) (st : state) :
  st_fs (process_link_files json_loads enc file_paths st).1 = st_fs st.
Proof. apply process_link_files_keeps_storage. Qed.

(** X4.  Reading an existing file with the program's encodings never
    raises; bytes that are not UTF-8 are read as iso-8859-1. *)
Theorem existing_file_is_always_read
    (fs : storage) (file_path : str) (bs : list byte) :
  fs !! file_path = Some bs ->
  exists content,
    read_file_with_multiple_encodings fs file_path default_encodings = Ok content
    /\ (decode Utf8 bs = None -> content = universal_newlines (Byte.to_N <$> bs)).
Proof.
  intros Hp. unfold default_encodings.
  cbn [read_file_with_multiple_encodings]. unfold open_read at 1. rewrite Hp.
  destruct (decode Utf8 bs) as [t|] eqn:Hd.
  - eexists. split; [reflexivity|]. intros H. discriminate H.
  - rewrite (open_read_latin1 fs file_path bs Hp). eauto.
Qed.

Lemma existing_file_is_always_read_witness :
  exists content,
    read_file_with_multiple_encodings latin1_file (txt "/tmp/cafe.html")
      default_encodings = Ok content
    /\ (decode Utf8 [Byte.x63; Byte.xe9] = None ->
        content = universal_newlines (Byte.to_N <$> [Byte.x63; Byte.xe9])).
Proof.
  apply (existing_file_is_always_read latin1_file (txt "/tmp/cafe.html")
           [Byte.x63; Byte.xe9]).
  reflexivity.
Defined.

(** ** What a match tells about the text *)

Section MatcherSoundness.
Context {R : Type}.

Lemma lit_sound (p s : str) (k : str -> option R) (x : R) :
  Re.lit p s k = Some x -> exists s', s = p ++ s' /\ k s' = Some x.
Proof.
  rewrite lit_spec. destruct (Re.after_prefix p s) as [u|] eqn:Hu; [|discriminate].
  intros H. exists u. split; [now apply after_prefix_app|done].
Qed.

Lemma rep_sound (c : Re.cls) (s : str) :
  forall (lo : nat) (hi : option nat) (k : str -> option R) (x : R),
    Re.rep c lo hi s k = Some x ->
    exists pre s',
      s = pre ++ s' /\ accepts (Re.Rep c lo hi) pre /\ k s' = Some x.
Proof.
  induction s as [|a s IH]; intros lo hi k x; simpl.
  - destruct lo; [|discriminate]. intros H. exists [], [].
    repeat split; [constructor|done|destruct hi; simpl; lia|done].
  - assert (match lo with 0 => k (a :: s) | S _ => None end = Some x ->
            exists pre s',
              a :: s = pre ++ s' /\
              (Forall (fun y => Is_true (Re.cls_test c y)) pre /\ lo <= length pre /\
               match hi with Some h => length pre <= h | None => True end) /\
              k s' = Some x) as Hstop.
    { destruct lo; [|discriminate]. intros H. exists [], (a :: s).
      repeat split; [constructor|done|destruct hi; simpl; lia|done]. }
    destruct (Re.cls_test c a) eqn:Ha; simpl; [|exact Hstop].
    destruct (Re.may_take hi) eqn:Hhi; [|exact Hstop].
    destruct (Re.rep c (pred lo) (pred <$> hi) s k) as [y|] eqn:Hr; [|exact Hstop].
    intros [= ->]. apply IH in Hr as (pre & s' & -> & (Hall & Hlo & Hh) & Hk).
    exists (a :: pre), s'. split; [done|]. split; [|done].
    split; [constructor; [now rewrite Ha|done]|]. simpl. split; [lia|].
    destruct hi as [[|h]|]; simpl in *; [discriminate|lia|done].
Qed.

Variable P : nat -> str -> Prop.

(** A match splits its input into the text the pattern accepts and the
    rest; every group it sets holds a text its sub-pattern accepts, and
    the groups that take part in every match are set. *)
Lemma run_sound (r : Re.re) :
  groups_meet P r ->
  forall (s : str) (g : Re.captures) (k : str -> Re.captures -> option R) (x : R),
    Forall (fun b => P b.1 b.2) g ->
    Re.run r s g k = Some x ->
    exists pre s' g',
      s = pre ++ s' /\ accepts r pre /\
      Forall (fun b => P b.1 b.2) g' /\
      (forall n, is_Some (Re.lookup_group n g) \/ always_sets n r = true ->
                 is_Some (Re.lookup_group n g')) /\
      k s' g' = Some x.
Proof.
  induction r as [p|c lo hi|r1 IH1 r2 IH2|r1 IH1 r2 IH2|m r1 IH1|r1 IH1];
    intros Hmeet s g k x Hg; simpl.
  - intros (s' & -> & Hk)%lit_sound. exists p, s', g.
    repeat split; try done. intros n [H|H]; [done|discriminate].
  - intros (pre & s' & -> & Hacc & Hk)%rep_sound. exists pre, s', g.
    repeat split; try done; try apply Hacc. intros n [H|H]; [done|discriminate].
  - destruct Hmeet as [Hm1 Hm2].
    intros (p1 & s1 & g1 & -> & Ha1 & Hg1 & Hs1 & H2)%(IH1 Hm1); [|done].
    apply (IH2 Hm2) in H2 as (p2 & s2 & g2 & -> & Ha2 & Hg2 & Hs2 & Hk); [|done].
    exists (p1 ++ p2), s2, g2. split; [now rewrite app_assoc|].
    split; [now exists p1, p2|]. split; [done|]. split; [|done].
    intros n [H|H].
    + apply Hs2. left. apply Hs1. now left.
    + apply orb_true_iff in H as [H|H].
      * apply Hs2. left. apply Hs1. now right.
      * apply Hs2. now right.
  - destruct Hmeet as [Hm1 Hm2].
    destruct (Re.run r1 s g k) as [y|] eqn:H1.
    + intros [= ->].
      apply (IH1 Hm1) in H1 as (pre & s' & g' & -> & Ha & Hg' & Hs & Hk); [|done].
      exists pre, s', g'. repeat split; try done; [now left|].
      intros n [H|H]; apply Hs; [now left|].
      apply andb_true_iff in H as [H _]. now right.
    + intros (pre & s' & g' & -> & Ha & Hg' & Hs & Hk)%(IH2 Hm2); [|done].
      exists pre, s', g'. repeat split; try done; [now right|].
      intros n [H|H]; apply Hs; [now left|].
      apply andb_true_iff in H as [_ H]. now right.
  - destruct Hmeet as [Hm Hm1].
    intros (pre & s' & g' & -> & Ha & Hg' & Hs & Hk)%(IH1 Hm1); [|done].
    rewrite length_app in Hk.
    replace (length pre + length s' - length s') with (length pre) in Hk by lia.
    rewrite take_app_length in Hk.
    eexists pre, s', _. split; [done|]. split; [done|].
    split; [|split; [|exact Hk]].
    + constructor; [now apply Hm|done].
    + intros n Hn. simpl. destruct (Nat.eqb_spec m n) as [->|Hmn]; [eauto|].
      apply Hs. destruct Hn as [H|H]; [now left|right].
      apply orb_true_iff in H as [H|H]; [discriminate|done].
  - destruct (Re.run r1 s g k) as [y|] eqn:H1.
    + intros [= ->].
      apply (IH1 Hmeet) in H1 as (pre & s' & g' & -> & Ha & Hg' & Hs & Hk); [|done].
      exists pre, s', g'. repeat split; try done; [now right|].
      intros n [H|H]; [|discriminate]. apply Hs. now left.
    + intros Hk. exists [], s, g. repeat split; try done; [now left|].
      intros n [H|H]; [done|discriminate].
Qed.

End MatcherSoundness.

Lemma lookup_group_elem (n : nat) (g : Re.captures) (t : str) :
  Re.lookup_group n g = Some t -> (n, t) ∈ g.
Proof.
  induction g as [|[m s] g IH]; simpl; [discriminate|].
  destruct (Nat.eqb_spec m n) as [->|].
  - intros [= ->]. left.
  - intros H. right. auto.
Qed.

(** [re.match]: the text splits into what the pattern accepts and the
    rest, and a group that takes part in every match holds a text with
    the property of its sub-pattern. *)
Lemma match_sound (P : nat -> str -> Prop) (r : Re.re) (s : str)
    (g : Re.captures) (rest : str) :
  groups_meet P r ->
  Re.match_ r s = Some (g, rest) ->
  (exists pre, s = pre ++ rest /\ accepts r pre) /\
  (forall n t, Re.lookup_group n g = Some t -> P n t) /\
  (forall n, always_sets n r = true -> P n (Re.group n g)).
Proof.
  intros Hmeet Hm. unfold Re.match_ in Hm.
  apply (run_sound P r Hmeet) in Hm as (pre & s' & g' & -> & Ha & Hg & Hs & [= <- <-]);
    [|constructor].
  assert (forall n t, Re.lookup_group n g' = Some t -> P n t) as Hget.
  { intros n t Ht%lookup_group_elem.
    rewrite Forall_forall in Hg. apply (Hg (n, t) Ht). }
  split; [eauto|]. split; [done|].
  intros n Hn. destruct (Hs n (or_intror Hn)) as [t Ht].
  unfold Re.group. rewrite Ht. simpl. eauto.
Qed.

(** [re.search] returns a match that starts somewhere in the text. *)
Lemma search_sound (r : Re.re) (s : str) (m : Re.captures * str) :
  Re.search r s = Some m ->
  exists pre s', s = pre ++ s' /\ Re.match_ r s' = Some m.
Proof.
  induction s as [|a s IH]; simpl.
  - destruct (Re.match_ r []) eqn:H; [|discriminate].
    intros [= ->]. now exists [], [].
  - destruct (Re.match_ r (a :: s)) eqn:H.
    + intros [= ->]. now exists [], (a :: s).
    + intros (pre & s' & -> & Hm)%IH. now exists (a :: pre), s'.
Qed.

(** *** Shapes *)

Lemma fits_app (m1 m2 : list Re.cls) (s1 s2 : str) :
  fits m1 s1 = true -> fits m2 s2 = true -> fits (m1 ++ m2) (s1 ++ s2) = true.
Proof.
  revert s1. induction m1 as [|k m1 IH]; intros [|c s1]; simpl; try done.
  intros [-> H]%andb_true_iff ?. simpl. auto.
Qed.

Lemma fits_literal (p : str) : fits (Re.Char <$> p) p = true.
Proof. induction p as [|c p IH]; simpl; [done|]. now rewrite N.eqb_refl. Qed.

Lemma fits_replicate (k : Re.cls) (s : str) :
  Forall (fun x => Is_true (Re.cls_test k x)) s ->
  fits (replicate (length s) k) s = true.
Proof.
  induction 1 as [|c s Hc _ IH]; simpl; [done|].
  apply Is_true_true in Hc. now rewrite Hc.
Qed.

(** A pattern of one shape accepts texts of that shape only. *)
Lemma mask_of_sound (r : Re.re) :
  forall (mask : list Re.cls) (t : str),
    mask_of r = Some mask -> accepts r t -> fits mask t = true.
Proof.
  induction r as [p|c lo hi|r1 IH1 r2 IH2|r1 IH1 r2 IH2|m r1 IH1|r1 IH1];
    intros mask t; simpl; try discriminate.
  - intros [= <-] ->. apply fits_literal.
  - destruct hi as [hi|]; [|discriminate].
    destruct (Nat.eqb_spec lo hi) as [->|]; [|discriminate].
    intros [= <-] (Hall & Hlo & Hhi).
    replace hi with (length t) by lia. now apply fits_replicate.
  - destruct (mask_of r1) as [m1|]; [|discriminate].
    destruct (mask_of r2) as [m2|]; [|discriminate]. simpl.
    intros [= <-] (s1 & s2 & -> & H1 & H2). apply fits_app; eauto.
  - apply IH1.
Qed.


(** ** The fields of an event *)



(** A sequence accepts a text that starts with what its first patterns
    accept. *)
Lemma accepts_chain (es : list Re.re) (tail : Re.re) (t : str) :
  accepts (foldr Re.Seq tail es) t ->
  exists a b, t = a ++ b /\ accepts (Re.cat es) a /\ accepts tail b.
Proof.
  revert t. induction es as [|e es IH]; intros t; simpl.
  - intros H. now exists [], t.
  - intros (s1 & s2 & -> & H1 & (a & b & -> & Ha & Hb)%IH).
    exists (s1 ++ a), b. split; [now rewrite app_assoc|]. split; [|done].
    now exists s1, a.
Qed.







(** ** The device address, the system names and the prefix of a link line *)

Lemma groups_meet_trivial (r : Re.re) : groups_meet (fun _ _ => True) r.
Proof. induction r; simpl; auto. Qed.

(** A literal followed by one group: the group holds what follows the
    literal in the text. *)
Lemma match_literal_group (p : str) (n : nat) (r : Re.re) (s : str)
    (g : Re.captures) (rest : str) :
  Re.match_ (Re.Seq (Re.Lit p) (Re.Group n r)) s = Some (g, rest) ->
  exists t, s = p ++ t ++ rest /\ accepts r t /\ Re.group n g = t.
Proof.
  unfold Re.match_. simpl. intros (s' & -> & H)%lit_sound.
  apply (run_sound (fun _ _ => True) r (groups_meet_trivial r)) in H
    as (pre & s'' & g' & -> & Ha & _ & _ & [= <- <-]); [|constructor].
  exists pre. split; [done|]. split; [done|].
  unfold Re.group. simpl. rewrite Nat.eqb_refl. simpl.
  rewrite length_app.
  replace (length pre + length s'' - length s'') with (length pre) by lia.
  apply take_app_length.
Qed.

Lemma fits_absent (c : N) (mask : list Re.cls) (s : str) :
  Forall (fun k => Re.cls_test k c = false) mask ->
  fits mask s = true -> c ∉ s.
Proof.
  intros Hmask. revert s.
  induction Hmask as [|k mask Hk _ IH]; intros [|x s]; simpl; try done.
  - intros _. apply not_elem_of_nil.
  - intros [Hx Hs]%andb_true_iff. apply not_elem_of_cons. split; [|auto].
    intros <-. congruence.
Qed.

Lemma split_on_app (c : N) (a b : str) :
  split_on c (a ++ c :: b) = split_on c a ++ split_on c b.
Proof.
  induction a as [|x a IH]; simpl.
  - now rewrite N.eqb_refl.
  - destruct (x =? c)%N; [now rewrite IH|].
    rewrite IH. destruct a as [|y a]; simpl; [done|].
    destruct (y =? c)%N; [done|]. now destruct (split_on c a).
Qed.

Lemma split_on_not_nil (c : N) (s : str) : split_on c s <> [].
Proof.
  destruct s as [|x s]; simpl; [done|].
  destruct (x =? c)%N; [done|]. now destruct (split_on c s).
Qed.

(** *** The device address *)



(** *** The system name of an HTML file *)

Lemma lstrip_elem (x : N) (s : str) : x ∈ lstrip s -> x ∈ s.
Proof.
  induction s as [|a s IH]; simpl; [done|].
  destruct (is_space a); [|done]. intros H. right. auto.
Qed.

Lemma strip_elem (x : N) (s : str) : x ∈ strip s -> x ∈ s.
Proof.
  unfold strip, rstrip. intros H%list_elem_of_In%in_rev%list_elem_of_In.
  apply lstrip_elem in H. apply list_elem_of_In, in_rev, list_elem_of_In in H.
  now apply lstrip_elem.
Qed.

Lemma truncate_at_elem (x c : N) (s : str) : x ∈ truncate_at c s -> x ∈ s.
Proof.
  induction s as [|a s IH]; simpl; [done|].
  destruct (a =? c)%N; [intros H; inversion H|].
  intros [->|H]%elem_of_cons; [left|right; auto].
Qed.

Lemma lstrip_length (s : str) : length (lstrip s) <= length s.
Proof.
  induction s as [|a s IH]; simpl; [done|].
  destruct (is_space a); simpl; lia.
Qed.

(** A text that [lstrip] leaves alone is empty or starts with a character
    that is not white space. *)
Lemma lstrip_fixed (s : str) :
  lstrip s = s <-> match s with [] => True | a :: _ => is_space a = false end.
Proof.
  destruct s as [|a s]; simpl; [done|].
  destruct (is_space a) eqn:Ha; [|done]. split; [|done].
  intros H. pose proof (lstrip_length s) as Hlen. rewrite H in Hlen.
  simpl in Hlen. lia.
Qed.

Lemma lstrip_idem (s : str) : lstrip (lstrip s) = lstrip s.
Proof.
  induction s as [|a s IH]; simpl; [done|].
  destruct (is_space a) eqn:Ha; [done|]. simpl. now rewrite Ha.
Qed.

Lemma lstrip_snoc (s : str) (a : N) :
  is_space a = false -> lstrip (s ++ [a]) = lstrip s ++ [a].
Proof.
  intros Ha. induction s as [|x s IH]; simpl; [now rewrite Ha|].
  destruct (is_space x); done.
Qed.

Lemma lstrip_rstrip (s : str) : lstrip s = s -> lstrip (rstrip s) = rstrip s.
Proof.
  intros H%lstrip_fixed. apply lstrip_fixed.
  destruct s as [|a s]; [done|].
  unfold rstrip. simpl. rewrite lstrip_snoc by done.
  now rewrite rev_app_distr.
Qed.

Lemma lstrip_truncate_at (c : N) (s : str) :
  lstrip s = s -> lstrip (truncate_at c s) = truncate_at c s.
Proof.
  intros H%lstrip_fixed. apply lstrip_fixed.
  destruct s as [|a s]; [done|]. simpl. now destruct (a =? c)%N.
Qed.

Lemma system_name_pattern_group :
  groups_meet (fun _ t => (10%N ∉ t) /\ (13%N ∉ t)) system_name_pattern.
Proof.
  unfold system_name_pattern, Re.cat. cbn [groups_meet foldr].
  repeat split; destruct H as (Hall & _); intros Hin;
    rewrite Forall_forall in Hall; apply Hall in Hin; exact Hin.
Qed.

(** X8.  The system name of an HTML file holds no [<], no line feed and
    no carriage return, and it does not start with white space. *)
Theorem html_system_name_is_clean (html_content : str) :
  (ch "<" ∉ html_system_name html_content) /\
  (10%N ∉ html_system_name html_content) /\
  (13%N ∉ html_system_name html_content) /\
  lstrip (html_system_name html_content) = html_system_name html_content.
Proof.
  unfold html_system_name.
  destruct (Re.search system_name_pattern html_content) as [[g rest]|] eqn:Hs.
  - apply search_sound in Hs as (before & s' & -> & Hm).
    apply (match_sound _ _ _ _ _ system_name_pattern_group) in Hm as (_ & _ & Hset).
    destruct (Hset 1 eq_refl) as [Hlf Hcr]. simpl.
    rewrite first_part_split.
    split; [apply truncate_at_free|].
    split; [intros H%truncate_at_elem%strip_elem; contradiction|].
    split; [intros H%truncate_at_elem%strip_elem; contradiction|].
    apply lstrip_truncate_at, lstrip_rstrip, lstrip_idem.
  - repeat split; try reflexivity; apply (bool_decide_unpack _); vm_compute; exact I.
Qed.

(** *** The system name of a syslog file *)

Lemma last_part_app (l1 l2 : list str) :
  l2 <> [] -> last_part (l1 ++ l2) = last_part l2.
Proof.
  intros H. unfold last_part. induction l1 as [|x l1 IH]; simpl; [done|].
  rewrite IH. destruct (l1 ++ l2) eqn:E; [|done].
  apply app_eq_nil in E as [_ ?]. contradiction.
Qed.

(** X9.  For a syslog or text file saved as [dir/stem_name.ext] the
    system name is [name]: what stands between the last underscore and
    the first dot of the file's base name. *)
Theorem log_system_name_of_file (dir stem name ext : str) :
  ch "/" ∉ stem ++ txt "_" ++ name ++ txt "." ++ ext ->
  ch "." ∉ stem ++ txt "_" ++ name ->
  ch "_" ∉ name ->
  log_system_name (dir ++ txt "/" ++ stem ++ txt "_" ++ name ++ txt "." ++ ext)
  = name.
Proof.
  intros Hslash Hdot Hus. unfold log_system_name, basename.
  change (dir ++ txt "/" ++ stem ++ txt "_" ++ name ++ txt "." ++ ext)
    with (dir ++ ch "/" :: (stem ++ txt "_" ++ name ++ txt "." ++ ext)).
  rewrite split_on_app, last_part_app by apply split_on_not_nil.
  rewrite (split_on_absent _ _ Hslash). cbn [last_part List.last].
  rewrite first_part_split.
  replace (stem ++ txt "_" ++ name ++ txt "." ++ ext)
    with ((stem ++ txt "_" ++ name) ++ ch "." :: ext)
    by now rewrite <- !app_assoc.
  rewrite <- first_part_split, (split_on_first _ _ _ Hdot). cbn [first_part hd].
  change (stem ++ txt "_" ++ name) with (stem ++ ch "_" :: name).
  rewrite split_on_app, last_part_app by apply split_on_not_nil.
  now rewrite (split_on_absent _ _ Hus).
Qed.

Lemma log_system_name_of_file_witness :
  log_system_name
    (txt "/tmp" ++ txt "/" ++ txt "export_site" ++ txt "_" ++ txt "RTR1"
       ++ txt "." ++ txt "log")
  = txt "RTR1".
Proof.
  apply (log_system_name_of_file (txt "/tmp") (txt "export_site") (txt "RTR1")
           (txt "log"));
    apply (bool_decide_unpack _); vm_compute; exact I.
Defined.

(** ** The lines of a feed *)

(** A match of the [INFO - ] prefix: the group holds a date and a time
    with one space between them, and the line starts with them. *)
Lemma info_prefix_match (line : str) (g : Re.captures) (rest : str) :
  Re.match_ info_prefix_pattern line = Some (g, rest) ->
  exists date time,
    line = txt "INFO - " ++ date ++ txt " " ++ time ++ rest /\
    fits iso_date_mask date = true /\ fits time_mask time = true /\
    split_on (ch " ") (Re.group 1 g) = [date; time].
Proof.
  unfold info_prefix_pattern. cbv zeta.
  intros (t & -> & Ha & Hg)%match_literal_group.
  apply (accepts_chain
           [Re.times 4 Re.Digit; Re.Lit (txt "-"); Re.times 2 Re.Digit;
            Re.Lit (txt "-"); Re.times 2 Re.Digit]
           (Re.cat [Re.Lit (txt " "); Re.times 2 Re.Digit; Re.Lit (txt ":");
                    Re.times 2 Re.Digit; Re.Lit (txt ":"); Re.times 2 Re.Digit]))
    in Ha as (date & b & -> & Hd & sp & time & -> & Hsp & Ht).
  simpl in Hsp. subst sp.
  assert (fits iso_date_mask date = true) as Hdate
    by (eapply mask_of_sound; [|exact Hd]; reflexivity).
  assert (fits time_mask time = true) as Htime.
  { apply (mask_of_sound
             (Re.cat [Re.times 2 Re.Digit; Re.Lit (txt ":"); Re.times 2 Re.Digit;
                      Re.Lit (txt ":"); Re.times 2 Re.Digit]));
      [reflexivity|exact Ht]. }
  exists date, time. rewrite <- !app_assoc. split; [reflexivity|].
  split; [done|]. split; [done|]. rewrite Hg.
  change (date ++ txt " " ++ time) with (date ++ ch " " :: time).
  rewrite split_on_first, split_on_absent; [done| |].
  - apply (fits_absent _ time_mask); [repeat constructor|done].
  - apply (fits_absent _ iso_date_mask); [repeat constructor|done].
Qed.




(** *** The loop over the lines *)

Lemma extract_lines_acc (per_line : str -> result (list dict))
    (lines : list str) :
  forall acc : list dict,
    for_each
      (fun json_list line => let! found := per_line line in Ok (json_list ++ found))
      lines acc
    = let! r := extract_lines per_line lines in Ok (acc ++ r).
Proof.
  unfold extract_lines. induction lines as [|x lines IH]; intros acc; simpl.
  - now rewrite app_nil_r.
  - destruct (per_line x) as [found|e]; simpl; [|done].
    rewrite (IH (acc ++ found)), (IH found).
    destruct (for_each _ lines []); simpl; [|done]. now rewrite app_assoc.
Qed.

Lemma extract_lines_cons (per_line : str -> result (list dict))
    (line : str) (lines : list str) :
  extract_lines per_line (line :: lines)
  = let! a := per_line line in
    let! b := extract_lines per_line lines in Ok (a ++ b).
Proof.
  unfold extract_lines at 1. simpl.
  destruct (per_line line) as [found|e]; simpl; [|done].
  apply extract_lines_acc.
Qed.

Lemma extract_lines_app (per_line : str -> result (list dict))
    (l1 l2 : list str) :
  extract_lines per_line (l1 ++ l2)
  = let! a := extract_lines per_line l1 in
    let! b := extract_lines per_line l2 in Ok (a ++ b).
Proof.
  induction l1 as [|x l1 IH]; simpl.
  - change (extract_lines per_line []) with (@Ok (list dict) []). simpl.
    now destruct (extract_lines per_line l2).
  - rewrite !extract_lines_cons, IH.
    destruct (per_line x) as [a|]; simpl; [|done].
    destruct (extract_lines per_line l1) as [b|]; simpl; [|done].
    destruct (extract_lines per_line l2) as [c|]; simpl; [|done].
    now rewrite app_assoc.
Qed.



(** What a line without a JSON object, or with an invalid one, yields. *)
Lemma feed_line_skipped (json_loads : str -> option dict) (k : feed)
    (line : str) :
  Re.search json_fragment_pattern line = None
  \/ json_loads (json_fragment line) = None ->
  feed_line json_loads k line = Ok [].
Proof.
  intros H. destruct k; simpl.
  - unfold link_line.
    destruct (Re.search json_fragment_pattern line); [|done].
    destruct H as [H|H]; [discriminate|].
    destruct (Re.match_ info_prefix_pattern line) as [[g rest]|] eqn:Hm; [|done].
    apply info_prefix_match in Hm as (date & time & _ & _ & _ & Hsplit).
    cbn [fst]. now rewrite Hsplit, H.
  - unfold equipment_line.
    destruct (Re.search json_fragment_pattern line); [|done].
    destruct H as [H|H]; [discriminate|]. now rewrite H.
Qed.

(** X12.  A line that holds no JSON object, or one that [json.loads]
    rejects, leaves no trace in either feed: the records of the file are
    those of the file without that line, and the lines after it are still
    read. *)
Theorem skipped_line_leaves_no_trace
    (json_loads : str -> option dict) (k : feed)
    (before : list str) (line : str) (after : list str) :
  Re.search json_fragment_pattern line = None
  \/ json_loads (json_fragment line) = None ->
  extract_lines (feed_line json_loads k) (before ++ line :: after)
  = extract_lines (feed_line json_loads k) (before ++ after).
Proof.
  intros H%(feed_line_skipped json_loads k).
  rewrite !extract_lines_app, extract_lines_cons, H. simpl.
  destruct (extract_lines _ before); simpl; [|done].
  now destruct (extract_lines _ after).
Qed.

Lemma skipped_line_leaves_no_trace_witness :
  extract_lines (feed_line sample_json_loads LinkStatus)
    ([] ++ txt "INFO - 2024-01-01 09:59:59 {not json}" :: [sample_link_line])
  = extract_lines (feed_line sample_json_loads LinkStatus)
      ([] ++ [sample_link_line]).
Proof.
  apply (skipped_line_leaves_no_trace sample_json_loads LinkStatus []
           (txt "INFO - 2024-01-01 09:59:59 {not json}") [sample_link_line]).
  right. vm_compute. reflexivity.
Defined.

(** *** A timestamp that does not split in two *)

Lemma split_on_length (c : N) (s : str) :
  length (split_on c s) = S (count_occ N.eq_dec s c).
Proof.
  induction s as [|x s IH]; simpl; [done|].
  destruct (N.eqb_spec x c) as [->|Hx].
  - destruct (N.eq_dec c c); [|done]. simpl. now rewrite IH.
  - destruct (N.eq_dec x c); [done|].
    rewrite <- IH. now destruct (split_on c s).
Qed.

Lemma equipment_line_bad_stamp (json_loads : str -> option dict) (line : str)
    (data : dict) (stamp : str) :
  is_Some (Re.search json_fragment_pattern line) ->
  json_loads (json_fragment line) = Some data ->
  dict_get (txt "messageSendTime") data = Some (VStr stamp) ->
  count_occ N.eq_dec stamp (ch "T") <> 1 ->
  equipment_line json_loads line = Raise ValueError.
Proof.
  intros [m Hm] Hl Hk Hcount. unfold equipment_line.
  rewrite Hm, Hl, Hk. simpl.
  pose proof (split_on_length (ch "T") stamp) as Hlen.
  destruct (split_on (ch "T") stamp) as [|date [|time [|]]]; try done.
  simpl in Hlen. lia.
Qed.

Lemma for_each_app {A S : Type} (f : S -> A -> result S) (l1 l2 : list A) (s : S) :
  for_each f (l1 ++ l2) s = let! s' := for_each f l1 s in for_each f l2 s'.
Proof.
  revert s. induction l1 as [|x l1 IH]; intros s; simpl; [done|].
  destruct (f s x); simpl; [apply IH|done].
Qed.

(** X13.  A [messageSendTime] that is a string without exactly one [T]
    makes the unpacking of date and time raise [ValueError].  Only
    [JSONDecodeError] is caught, so the exception leaves
    [process_equipment_files]: the records collected so far are lost, the
    sheet it created stays empty and the summary gets no entry. *)
Theorem malformed_timestamp_aborts_the_equipment_batch
    (json_loads : str -> option dict) (py_str : value -> str) (enc : encoding)
    (earlier : list str) (file_path : str) (later : list str) (st : state)
    (collected : list dict * nat)
    (before : list str) (line : str) (after : list str) (found : list dict)
    (data : dict) (stamp : str) :
  collect_equipment_items json_loads py_str enc (st_fs st) earlier = Ok collected ->
  read_lines enc (st_fs st) file_path = Ok (before ++ line :: after) ->
  extract_lines (equipment_line json_loads) before = Ok found ->
  is_Some (Re.search json_fragment_pattern line) ->
  json_loads (json_fragment line) = Some data ->
  dict_get (txt "messageSendTime") data = Some (VStr stamp) ->
  count_occ N.eq_dec stamp (ch "T") <> 1 ->
  process_equipment_files json_loads py_str enc
    (earlier ++ file_path :: later) st
  = Some (State (st_wb st ++ [Worksheet (txt "equipment_status") []])
            (st_summary st) (st_fs st),
          Raised ValueError).
Proof.
  intros Hearlier Hread Hbefore Hm Hl Hk Hcount.
  pose proof (equipment_line_bad_stamp _ _ _ _ Hm Hl Hk Hcount) as Hline.
  assert (extract_equipment_data json_loads enc (st_fs st) file_path
          = Raise ValueError) as Hfile.
  { unfold extract_equipment_data. rewrite Hread. simpl.
    now rewrite extract_lines_app, Hbefore, extract_lines_cons, Hline. }
  assert (collect_equipment_items json_loads py_str enc (st_fs st)
            (earlier ++ file_path :: later) = Raise ValueError) as Hcollect.
  { unfold collect_equipment_items in *. rewrite for_each_app, Hearlier.
    destruct collected as [items n]. simpl. now rewrite Hfile. }
  unfold process_equipment_files, process_equipment_files_with, create_sheet.
  cbn [st_fs]. now rewrite Hcollect.
Qed.

Lemma malformed_timestamp_aborts_the_equipment_batch_witness :
  process_equipment_files sample_json_loads_more sample_py_str Utf8
    ([sample_equipment_path] ++ sample_spaced_path :: [sample_equipment_path])
    sample_spaced_state
  = Some (State (st_wb sample_spaced_state
                   ++ [Worksheet (txt "equipment_status") []])
            (st_summary sample_spaced_state) (st_fs sample_spaced_state),
          Raised ValueError).
Proof.
  apply (malformed_timestamp_aborts_the_equipment_batch
           sample_json_loads_more sample_py_str Utf8
           [sample_equipment_path] sample_spaced_path [sample_equipment_path]
           sample_spaced_state
           ([dict_update
               [(txt "id", VInt 1); (txt "equipmentItems", VStr (txt "[7]"))]
               [(txt "messageSendTime", VStr (txt "2024-01-01T10:00:00.123+07:00"));
                (txt "node", VStr (txt "X"));
                (txt "Date", VStr (txt "2024-01-01"));
                (txt "Time", VStr (txt "10:00:00"))]], 1)
           [sample_untimed_fragment] (txt "status " ++ sample_spaced_fragment) []
           [] sample_spaced_payload (txt "2024-01-01 10:00:00")).
  - vm_compute. reflexivity.
  - vm_compute. reflexivity.
  - vm_compute. reflexivity.
  - vm_compute. eauto.
  - vm_compute. reflexivity.
  - reflexivity.
  - vm_compute. discriminate.
Defined.

(** X14.  A link-status or equipment-status batch that yields no record
    (no file, no line with a payload, payloads without items) still gets
    its sheet, which stays empty, header included; the summary and the
    storage are as before. *)
Theorem feed_without_records_leaves_an_empty_sheet
    (json_loads : str -> option dict) (py_str : value -> str) (enc : encoding)
    (k : feed) (file_paths : list str) (st : state) :
  feed_records json_loads py_str enc k (st_fs st) file_paths = Ok [] ->
  process_feed json_loads py_str enc k file_paths st
  = Some (State (st_wb st ++ [Worksheet (feed_title k) []])
            (st_summary st) (st_fs st),
          Normal).
Proof.
  destruct k; simpl.
  - intros H. unfold process_link_files, create_sheet. cbn [st_fs].
    now rewrite H.
  - destruct (collect_equipment_items _ _ _ _ _) as [[items n]|] eqn:Hc;
      simpl; [|discriminate].
    intros [= ->].
    unfold process_equipment_files, process_equipment_files_with, create_sheet.
    cbn [st_fs]. now rewrite Hc.
Qed.

Lemma feed_without_records_leaves_an_empty_sheet_witness :
  process_feed sample_json_loads sample_py_str Utf8 EquipmentStatus
    [sample_untimed_path] sample_feed_state
  = Some (State (st_wb sample_feed_state
                   ++ [Worksheet (feed_title EquipmentStatus) []])
            (st_summary sample_feed_state) (st_fs sample_feed_state),
          Normal).
Proof.
  apply (feed_without_records_leaves_an_empty_sheet sample_json_loads
           sample_py_str Utf8 EquipmentStatus [sample_untimed_path]
           sample_feed_state).
  vm_compute. reflexivity.
Defined.

(** ** The table of a feed *)

Lemma add_key_NoDup (acc : list str) (k : str) : NoDup acc -> NoDup (add_key acc k).
Proof.
  intros H. unfold add_key. destruct (decide (k ∈ acc)); [done|].
  apply NoDup_app. split; [done|]. split; [|apply NoDup_singleton].
  intros x Hx ->%list_elem_of_singleton. contradiction.
Qed.

Lemma add_keys_NoDup (ks acc : list str) : NoDup acc -> NoDup (foldl add_key acc ks).
Proof.
  revert acc. induction ks as [|k ks IH]; intros acc H; simpl; [done|].
  apply IH. now apply add_key_NoDup.
Qed.

Lemma union_keys_from (records : list dict) :
  forall acc : list str,
    NoDup acc ->
    NoDup (foldl (fun acc r => foldl add_key acc r.*1) acc records) /\
    forall k,
      k ∈ foldl (fun acc r => foldl add_key acc r.*1) acc records
      <-> k ∈ acc \/ exists r, r ∈ records /\ k ∈ r.*1.
Proof.
  induction records as [|r0 records IH]; intros acc Hacc; simpl.
  - split; [done|]. intros k. split; [auto|].
    intros [H|(r & Hr & _)]; [done|inversion Hr].
  - destruct (IH (foldl add_key acc r0.*1) (add_keys_NoDup _ _ Hacc)) as [Hnd Hin].
    split; [done|]. intros k. rewrite Hin, add_keys_elem. split.
    + intros [[H|H]|(r & Hr & Hk)]; [now left| |].
      * right. exists r0. split; [left|done].
      * right. exists r. split; [now right|done].
    + intros [H|(r & [->|Hr]%elem_of_cons & Hk)]; [auto|auto|].
      right. now exists r.
Qed.

Lemma union_keys_NoDup (records : list dict) : NoDup (union_keys records).
Proof. apply (union_keys_from records []), NoDup_nil_2. Qed.

Lemma union_keys_spec (records : list dict) (k : str) :
  k ∈ union_keys records
  <-> exists r, r ∈ records /\ is_Some (dict_get k r).
Proof.
  unfold union_keys.
  rewrite (proj2 (union_keys_from records [] (NoDup_nil_2)) k). split.
  - intros [H|(r & Hr & Hk)]; [inversion H|].
    exists r. split; [done|]. now apply dict_get_keys.
  - intros (r & Hr & Hk). right. exists r. split; [done|]. now apply dict_get_keys.
Qed.

(** X15.  The table of a link-status or equipment-status batch: its
    header starts with [Date] and [Time], lists every key of every record
    and nothing else, and lists no key twice; there is one row per
    record, and each row has one cell per column. *)
Theorem feed_table_header
    (json_loads : str -> option dict) (py_str : value -> str) (enc : encoding)
    (k : feed) (fs : storage) (file_paths : list str) (all_items : list dict) :
  feed_records json_loads py_str enc k fs file_paths = Ok all_items ->
  all_items <> [] ->
  exists (others : list str) (table : list (list value)),
    ordered_frame all_items
      = Ok (Frame (txt "Date" :: txt "Time" :: others) table) /\
    NoDup (txt "Date" :: txt "Time" :: others) /\
    (forall key,
        key ∈ txt "Date" :: txt "Time" :: others
        <-> exists record, record ∈ all_items /\ is_Some (dict_get key record)) /\
    length table = length all_items /\
    Forall (fun row => length row = 2 + length others) table.
Proof.
  intros Hrec Hne.
  pose proof (feed_records_date_time _ _ _ _ _ _ _ Hrec) as Hdt.
  destruct (ordered_frame_ok all_items Hne Hdt) as (cols & table & Hframe & Hlen).
  exists cols, table. split; [done|].
  unfold ordered_frame, select_columns in Hframe.
  destruct (mapM _ _) as [idx|] eqn:Hidx; [|discriminate].
  apply length_mapM in Hidx.
  injection Hframe as <- <-.
  set (keys := union_keys all_items) in *.
  assert (txt "Date" ∈ keys /\ txt "Time" ∈ keys) as [Hd Ht].
  { destruct all_items as [|d ds]; [done|].
    apply Forall_cons in Hdt as [[Hdate Htime] _].
    split; apply union_keys_spec; exists d; (split; [left|done]). }
  split; [|split; [|split; [done|]]].
  - apply NoDup_cons. split.
    + intros [H|H]%elem_of_cons; [vm_compute in H; discriminate|].
      apply list_elem_of_filter in H as [H _]. apply H. left.
    + apply NoDup_cons. split.
      * intros [H _]%list_elem_of_filter. apply H. right. left.
      * apply NoDup_filter, union_keys_NoDup.
  - intros key. rewrite <- union_keys_spec. fold keys.
    rewrite !elem_of_cons, list_elem_of_filter. split.
    + intros [->|[->|[_ H]]]; done.
    + intros H. destruct (decide (key = txt "Date")) as [->|Hnd]; [now left|].
      destruct (decide (key = txt "Time")) as [->|Hnt]; [now right; left|].
      right. right. split; [|done].
      intros [?|[?|Hnil]%elem_of_cons]%elem_of_cons; [done|done|inversion Hnil].
  - apply Forall_forall. intros row (r & -> & _)%list_elem_of_fmap.
    rewrite length_fmap, <- Hidx. reflexivity.
Qed.

Lemma feed_table_header_witness :
  exists (others : list str) (table : list (list value)),
    ordered_frame sample_link_records
      = Ok (Frame (txt "Date" :: txt "Time" :: others) table) /\
    NoDup (txt "Date" :: txt "Time" :: others) /\
    (forall key,
        key ∈ txt "Date" :: txt "Time" :: others
        <-> exists record,
              record ∈ sample_link_records /\ is_Some (dict_get key record)) /\
    length table = length sample_link_records /\
    Forall (fun row => length row = 2 + length others) table.
Proof.
  apply (feed_table_header sample_json_loads sample_py_str Utf8 LinkStatus
           (st_fs sample_feed_state) [sample_link_path] sample_link_records).
  - vm_compute. reflexivity.
  - discriminate.
Defined.

(** ** The pages of the equipment table *)




(** ** A batch of the HTML or syslog driver, file by file *)

Lemma file_block_same_file (f : log_format) (fs fs' : storage) (index : nat)
    (p : str) :
  fs !! p = fs' !! p -> file_block f fs index p = file_block f fs' index p.
Proof.
  intros H. unfold file_block.
  now rewrite (read_same_file fs fs' p default_encodings H).
Qed.

(** One turn of the loop on a file that is there: the rows and the
    summary entry of the file are added, and the file is removed. *)
Lemma format_file_present (f : log_format) (ws index : nat) (p : str) (st : state) :
  is_Some (st_fs st !! p) ->
  format_file f ws index p st
  = (State (ws_append_all ws (file_block f (st_fs st) index p).1 (st_wb st))
           (st_summary st ++ (file_block f (st_fs st) index p).2)
           (delete p (st_fs st)),
     Normal).
Proof.
  intros Hp.
  assert (os_remove p st
          = (State (ws_append_all ws [] (st_wb st)) (st_summary st ++ [])
                   (delete p (st_fs st)), Normal)) as Hskip.
  { rewrite os_remove_present by done. simpl. now rewrite app_nil_r. }
  destruct f; cbn [format_file];
    unfold html_file, html_try, log_file, log_try, file_block;
    cbn [format_events format_rows format_summary];
    (destruct (read_file_with_multiple_encodings _ _ _) as [content|e];
     [|exact Hskip]); cbv beta iota delta [bind].
  - destruct (Re.findall html_pattern1 9 content) as [|ev evs]; [exact Hskip|].
    destruct (html_rows content) as [sorted|e]; [|exact Hskip].
    rewrite os_remove_present by exact Hp. reflexivity.
  - destruct (Re.findall log_pattern1 8 content) as [|ev evs]; [exact Hskip|].
    destruct (log_rows _ content) as [sorted|e]; [|exact Hskip].
    rewrite os_remove_present by exact Hp. reflexivity.
Qed.

(** One turn of the loop on a file that is not there: [os.remove] raises
    in the [finally] clause, and nothing else has changed. *)
Lemma format_file_missing (f : log_format) (ws index : nat) (p : str) (st : state) :
  st_fs st !! p = None ->
  format_file f ws index p st = (st, Raised FileNotFoundError).
Proof.
  intros Hp.
  assert (read_file_with_multiple_encodings (st_fs st) p default_encodings
          = Raise FileNotFoundError) as Hread.
  { unfold default_encodings. cbn [read_file_with_multiple_encodings].
    unfold open_read. now rewrite Hp. }
  destruct f; simpl; unfold html_file, html_try, log_file, log_try;
    rewrite Hread; simpl; unfold os_remove; now rewrite Hp.
Qed.

Lemma without_delete (paths : list str) (p : str) (fs : storage) :
  without paths (delete p fs) = delete p (without paths fs).
Proof.
  unfold without. induction paths as [|q paths IH]; simpl; [done|].
  now rewrite IH, delete_delete.
Qed.

Lemma without_lookup (paths : list str) (fs : storage) (q : str) :
  without paths fs !! q = if decide (q ∈ paths) then None else fs !! q.
Proof.
  unfold without. induction paths as [|p paths IH]; simpl.
  - destruct (decide (q ∈ [])) as [H|]; [inversion H|done].
  - destruct (decide (p = q)) as [->|Hne].
    + rewrite lookup_delete_eq. destruct (decide (q ∈ q :: paths)) as [|H]; [done|].
      exfalso. apply H. left.
    + rewrite lookup_delete_ne by done. rewrite IH.
      destruct (decide (q ∈ paths)), (decide (q ∈ p :: paths)) as [H|H];
        try done.
      * exfalso. apply H. now right.
      * apply elem_of_cons in H as [->|H]; done.
Qed.

Lemma ws_append_all_app (ws : nat) (r1 r2 : list (list value)) (wb : workbook) :
  ws_append_all ws (r1 ++ r2) wb = ws_append_all ws r2 (ws_append_all ws r1 wb).
Proof. unfold ws_append_all. apply foldl_app. Qed.

(** The loop over distinct files that are all there. *)
Lemma for_files_present (f : log_format) (ws : nat) (paths : list str) :
  forall (index : nat) (wb : workbook) (summary : list (list value)) (fs : storage),
    NoDup paths ->
    (forall p, p ∈ paths -> is_Some (fs !! p)) ->
    for_files (format_file f ws) index paths (State wb summary fs)
    = (State
         (ws_append_all ws
            (concat (imap (fun i p => (file_block f fs (index + i) p).1) paths)) wb)
         (summary
            ++ concat (imap (fun i p => (file_block f fs (index + i) p).2) paths))
         (without paths fs),
       Normal).
Proof.
  induction paths as [|p paths IH]; intros index wb summary fs Hnd Hall.
  - simpl. now rewrite app_nil_r.
  - apply NoDup_cons in Hnd as [Hp Hnd].
    cbn [for_files]. rewrite format_file_present by (apply Hall; left).
    cbn [st_fs st_wb st_summary].
    rewrite IH; [|done|].
    + cbn [imap concat]. rewrite Nat.add_0_r.
      rewrite ws_append_all_app, <- app_assoc, without_delete.
      change (without (p :: paths) fs) with (delete p (without paths fs)).
      assert (forall (sel : list (list value) * list (list value) -> list (list value)),
                 imap (fun i q => sel (file_block f (delete p fs) (S index + i) q)) paths
                 = imap ((fun i q => sel (file_block f fs (index + i) q)) ∘ S) paths)
        as Hblocks.
      { intros sel. apply imap_ext. intros i q Hq. simpl.
        rewrite (file_block_same_file f (delete p fs) fs).
        - do 3 f_equal. lia.
        - apply lookup_delete_ne. intros ->.
          apply Hp. eapply list_elem_of_lookup_2, Hq. }
      now rewrite (Hblocks fst), (Hblocks snd).
    + intros q Hq. rewrite lookup_delete_ne; [apply Hall; now right|].
      intros ->. contradiction.
Qed.

Lemma process_format_loop (f : log_format) (paths : list str) (st : state) :
  process_format f paths st
  = for_files (format_file f (length (st_wb st))) 1 paths
      (State (st_wb st ++ [Worksheet (format_title f) [str_cells (format_header f)]])
             (st_summary st) (st_fs st)).
Proof.
  destruct f; simpl; unfold process_html_files, process_log_files, create_sheet;
    now rewrite create_sheet_with_header.
Qed.



(** The summary of that batch: the second file is entry number 2, though
    the first file gave no entry. *)
Lemma summary_numbers_are_positions :
  st_summary
    (process_format HtmlEvent [sample_empty_path; sample_html_path]
       sample_pair_state).1
  = [[VInt 2; VStr (txt "rtr1.html"); VStr (txt "10.0.0.1"); VStr (txt "RTR-1")]].
Proof. vm_compute. reflexivity. Qed.

Lemma for_files_app (body : nat -> str -> state -> state * outcome)
    (l1 l2 : list str) :
  forall (index : nat) (st : state),
    for_files body index (l1 ++ l2) st
    = match for_files body index l1 st with
      | (st', Normal) => for_files body (index + length l1) l2 st'
      | (st', Raised e) => (st', Raised e)
      end.
Proof.
  induction l1 as [|p l1 IH]; intros index st; simpl.
  - now rewrite Nat.add_0_r.
  - destruct (body index p st) as [st' [|e]]; [|done].
    rewrite IH. now replace (S index + length l1) with (index + S (length l1)) by lia.
Qed.

(** X18.  A file of the batch that is not in storage when its turn comes,
    because it never was or because the batch names it twice, ends the
    HTML and the syslog driver with [FileNotFoundError], raised by
    [os.remove] in the [finally] clause.  The workbook and the summary
    are as the files before it left them, and the files after it are
    neither read nor removed. *)
Theorem missing_file_aborts_the_batch
    (f : log_format) (before : list str) (file_address : str) (after : list str)
    (st : state) :
  NoDup before ->
  (forall p, p ∈ before -> is_Some (st_fs st !! p)) ->
  st_fs st !! file_address = None \/ file_address ∈ before ->
  process_format f (before ++ file_address :: after) st
  = ((process_format f before st).1, Raised FileNotFoundError)
  /\ st_fs (process_format f before st).1 = without before (st_fs st).
Proof.
  intros Hnd Hall Hgone.
  rewrite !process_format_loop, for_files_app, for_files_present by done.
  cbn [for_files fst st_fs]. split; [|done].
  rewrite format_file_missing; [done|].
  cbn [st_fs]. rewrite without_lookup.
  destruct (decide (file_address ∈ before)); [done|]. now destruct Hgone.
Qed.

Lemma missing_file_aborts_the_batch_witness :
  process_format HtmlEvent ([sample_html_path] ++ sample_html_path :: [])
    sample_html_state
  = ((process_format HtmlEvent [sample_html_path] sample_html_state).1,
     Raised FileNotFoundError)
  /\ st_fs (process_format HtmlEvent [sample_html_path] sample_html_state).1
     = without [sample_html_path] (st_fs sample_html_state).
Proof.
  apply (missing_file_aborts_the_batch HtmlEvent [sample_html_path]
           sample_html_path [] sample_html_state).
  - apply (bool_decide_unpack _). vm_compute. exact I.
  - intros p Hp. apply list_elem_of_In in Hp.
    destruct Hp as [<-|[]]; vm_compute; eauto.
  - right. left.
Defined.

(** ** The reader, when every encoding fails *)

(** X19.  When the file is there and none of the encodings asked for
    decodes it, the reader ends with [TypeError], not with the
    [UnicodeDecodeError] its last line means to raise: that exception is
    built with one argument where five are required. *)
Theorem reader_ends_with_type_error
    (fs : storage) (file_path : str) (bs : list byte) (encodings : list encoding) :
  fs !! file_path = Some bs ->
  Forall (fun e => decode e bs = None) encodings ->
  read_file_with_multiple_encodings fs file_path encodings = Raise TypeError.
Proof.
  intros Hp Hall. induction Hall as [|e encodings He _ IH]; simpl; [done|].
  unfold open_read. now rewrite Hp, He.
Qed.

Lemma reader_ends_with_type_error_witness :
  read_file_with_multiple_encodings {[ txt "/tmp/odd.html" := [Byte.x81] ]}
    (txt "/tmp/odd.html") [Utf8; Cp1252]
  = Raise TypeError.
Proof.
  apply (reader_ends_with_type_error {[ txt "/tmp/odd.html" := [Byte.x81] ]}
           (txt "/tmp/odd.html") [Byte.x81] [Utf8; Cp1252]).
  - reflexivity.
  - repeat constructor.
Defined.

(** ** A payload whose [items] is null *)

(** X20.  A payload whose [items] is [null] is skipped by the equipment
    driver, which tests [if items:], but makes the link driver raise
    [TypeError], since it iterates over [items] without a test. *)
Theorem null_items_split_the_drivers
    (py_str : value -> str) (data : dict) :
  dict_get (txt "items") data = Some VNone ->
  feed_payload_items py_str EquipmentStatus data = Ok []
  /\ feed_payload_items py_str LinkStatus data = Raise TypeError.
Proof.
  intros H. simpl. unfold equipment_payload_items, link_payload_items, dict_pop.
  rewrite H. split; reflexivity.
Qed.

Lemma null_items_split_the_drivers_witness :
  feed_payload_items sample_py_str EquipmentStatus
    [(txt "node", VStr (txt "X")); (txt "items", VNone)] = Ok []
  /\ feed_payload_items sample_py_str LinkStatus
       [(txt "node", VStr (txt "X")); (txt "items", VNone)] = Raise TypeError.
Proof.
  apply (null_items_split_the_drivers sample_py_str
           [(txt "node", VStr (txt "X")); (txt "items", VNone)]).
  vm_compute. reflexivity.
Defined.

(** ** The groups of the uploads *)

Lemma second_segment_none (file : upload) :
  second_segment file = None <-> ch "/" ∉ filename file.
Proof.
  unfold second_segment. rewrite lookup_ge_None, split_on_length.
  rewrite list_elem_of_In, (count_occ_not_In N.eq_dec). lia.
Qed.

(** The second component of [top/folder] and of [top/folder/...]. *)
Lemma second_segment_of_path (file : upload) (top folder tail : str) :
  filename file = top ++ ch "/" :: folder ++ tail ->
  ch "/" ∉ top -> ch "/" ∉ folder ->
  tail = [] \/ (exists rest, tail = ch "/" :: rest) ->
  second_segment file = Some folder.
Proof.
  intros Hname Htop Hfolder Htail. unfold second_segment. rewrite Hname.
  rewrite split_on_first by done.
  destruct Htail as [->|[rest ->]].
  - now rewrite app_nil_r, split_on_absent.
  - now rewrite split_on_first.
Qed.

Lemma comprehension_none (cond : upload -> option bool) (input_files : list upload) :
  comprehension cond input_files = None
  <-> exists file, file ∈ input_files /\ cond file = None.
Proof.
  induction input_files as [|file rest IH]; simpl.
  - split; [discriminate|]. intros (file & H & _). inversion H.
  - destruct (cond file) as [keep|] eqn:Hc; simpl.
    + destruct (comprehension cond rest) as [kept|] eqn:Hr; simpl.
      * split; [discriminate|].
        intros (f & [->|Hf]%elem_of_cons & Hn); [congruence|].
        assert (Some kept = None) as Hk by (apply IH; eauto). discriminate Hk.
      * split; [|done]. intros _.
        destruct (proj1 IH eq_refl) as (f & Hf & Hn). exists f. split; [now right|done].
    + split; [|done]. intros _. exists file. split; [left|done].
Qed.

Lemma comprehension_elem (cond : upload -> option bool)
    (input_files kept : list upload) :
  comprehension cond input_files = Some kept ->
  forall file, file ∈ kept <-> file ∈ input_files /\ cond file = Some true.
Proof.
  revert kept. induction input_files as [|x rest IH]; intros kept; simpl.
  - intros [= <-] file. split; [intros H; inversion H|intros [H _]; inversion H].
  - destruct (cond x) as [keep|] eqn:Hc; simpl; [|discriminate].
    destruct (comprehension cond rest) as [kept'|]; simpl; [|discriminate].
    intros [= <-] file. specialize (IH kept' eq_refl file).
    destruct keep.
    + rewrite !elem_of_cons, IH. split.
      * intros [->|[H1 H2]]; auto.
      * intros [[->|H1] H2]; auto.
    + rewrite elem_of_cons, IH. split.
      * intros [H1 H2]; auto.
      * intros [[->|H1] H2]; [congruence|auto].
Qed.

Lemma comprehension_sublist (cond : upload -> option bool)
    (input_files kept : list upload) :
  comprehension cond input_files = Some kept -> sublist kept input_files.
Proof.
  revert kept. induction input_files as [|x rest IH]; intros kept; simpl.
  - intros [= <-]. constructor.
  - destruct (cond x) as [keep|]; simpl; [|discriminate].
    destruct (comprehension cond rest) as [kept'|]; simpl; [|discriminate].
    intros [= <-]. destruct keep; constructor; auto.
Qed.

(** X21.  Sorting the uploads into groups raises [IndexError] exactly
    when the name of some uploaded file holds no slash: the conditions for
    the two feeds take [split('/')[1]] of every name, whatever its
    extension. *)
Theorem upload_without_a_folder_fails
    (input_files : list upload) :
  group_uploads input_files = None
  <-> exists file, file ∈ input_files /\ ch "/" ∉ filename file.
Proof.
  unfold group_uploads. split.
  - intros H.
    assert (exists cond,
               comprehension cond input_files = None /\
               forall file, cond file = None -> second_segment file = None)
      as (cond & Hnone & Hcond).
    { destruct (comprehension is_html input_files) eqn:H1; simpl in H;
        [|exists is_html; split; [done|discriminate]].
      destruct (comprehension is_log input_files) eqn:H2; simpl in H.
      2:{ exists is_log. split; [done|]. intros file. unfold is_log, neither_feed.
          destruct (endswith _ _); [|discriminate].
          now destruct (second_segment file). }
      destruct (comprehension is_text input_files) eqn:H3; simpl in H.
      2:{ exists is_text. split; [done|]. intros file. unfold is_text, neither_feed.
          destruct (endswith _ _); [|discriminate].
          now destruct (second_segment file). }
      destruct (comprehension is_link input_files) eqn:H4; simpl in H.
      2:{ exists is_link. split; [done|]. intros file. unfold is_link.
          now destruct (second_segment file). }
      destruct (comprehension is_equipment input_files) eqn:H5; simpl in H;
        [discriminate|].
      exists is_equipment. split; [done|]. intros file. unfold is_equipment.
      now destruct (second_segment file). }
    apply comprehension_none in Hnone as (file & Hin & Hc).
    exists file. split; [done|]. now apply second_segment_none, Hcond.
  - intros (file & Hin & Hslash%second_segment_none).
    assert (comprehension is_link input_files = None) as Hlink.
    { apply comprehension_none. exists file. split; [done|].
      unfold is_link. now rewrite Hslash. }
    destruct (comprehension is_html input_files); simpl; [|done].
    destruct (comprehension is_log input_files); simpl; [|done].
    destruct (comprehension is_text input_files); simpl; [|done].
    now rewrite Hlink.
Qed.

Lemma endswith_log_not_txt (s : str) :
  endswith (txt ".log") s = true -> endswith (txt ".txt") s = false.
Proof.
  unfold endswith. change (rev (txt ".log")) with [103; 111; 108; 46]%N.
  change (rev (txt ".txt")) with [116; 120; 116; 46]%N.
  destruct (rev s) as [|x r]; cbn [startswith]; [discriminate|].
  destruct (N.eqb_spec x 103) as [->|]; [|discriminate]. reflexivity.
Qed.

(** X22.  When the uploads are sorted into groups, no file is in two of
    the groups for syslog files, text files, link-status files and
    equipment-status files; and every group, the HTML group too, lists
    its files in the order of the upload. *)
Theorem groups_do_not_overlap
    (input_files : list upload) (groups : file_groups) :
  group_uploads input_files = Some groups ->
  (forall file,
      file ∈ log_files groups ->
      (file ∉ text_files groups) /\ (file ∉ link_files groups)
      /\ (file ∉ equipment_files groups)) /\
  (forall file,
      file ∈ text_files groups ->
      (file ∉ link_files groups) /\ (file ∉ equipment_files groups)) /\
  (forall file, file ∈ link_files groups -> file ∉ equipment_files groups) /\
  sublist (html_files groups) input_files /\
  sublist (log_files groups) input_files /\
  sublist (text_files groups) input_files /\
  sublist (link_files groups) input_files /\
  sublist (equipment_files groups) input_files.
Proof.
  unfold group_uploads.
  destruct (comprehension is_html input_files) as [html|] eqn:H1; [|discriminate].
  destruct (comprehension is_log input_files) as [logs|] eqn:H2; [|discriminate].
  destruct (comprehension is_text input_files) as [texts|] eqn:H3; [|discriminate].
  destruct (comprehension is_link input_files) as [links|] eqn:H4; [|discriminate].
  destruct (comprehension is_equipment input_files) as [equipment|] eqn:H5;
    [|discriminate].
  simpl. intros [= <-]. cbn [html_files log_files text_files link_files equipment_files].
  pose proof (comprehension_elem _ _ _ H2) as E2.
  pose proof (comprehension_elem _ _ _ H3) as E3.
  pose proof (comprehension_elem _ _ _ H4) as E4.
  pose proof (comprehension_elem _ _ _ H5) as E5.
  split; [|split; [|split]].
  - intros file [_ Hlog]%E2. unfold is_log, neither_feed in Hlog.
    destruct (endswith (txt ".log") (filename file)) eqn:Hext; [|discriminate].
    destruct (second_segment file) as [folder|] eqn:Hseg; [|discriminate].
    simpl in Hlog. injection Hlog as Hlog.
    apply andb_true_iff in Hlog as [Hl He].
    apply negb_true_iff in Hl, He.
    split; [|split].
    + intros [_ H]%E3. unfold is_text in H.
      rewrite (endswith_log_not_txt _ Hext) in H. discriminate.
    + intros [_ H]%E4. unfold is_link in H. rewrite Hseg in H. simpl in H.
      rewrite Hl in H. discriminate.
    + intros [_ H]%E5. unfold is_equipment in H. rewrite Hseg in H. simpl in H.
      rewrite He in H. discriminate.
  - intros file [_ Htext]%E3. unfold is_text, neither_feed in Htext.
    destruct (endswith (txt ".txt") (filename file)); [|discriminate].
    destruct (second_segment file) as [folder|] eqn:Hseg; [|discriminate].
    simpl in Htext. injection Htext as Htext.
    apply andb_true_iff in Htext as [Hl He].
    apply negb_true_iff in Hl, He.
    split.
    + intros [_ H]%E4. unfold is_link in H. rewrite Hseg in H. simpl in H.
      rewrite Hl in H. discriminate.
    + intros [_ H]%E5. unfold is_equipment in H. rewrite Hseg in H. simpl in H.
      rewrite He in H. discriminate.
  - intros file [_ Hlink]%E4 [_ H]%E5. unfold is_link in Hlink.
    unfold is_equipment in H.
    destruct (second_segment file) as [folder|]; [|discriminate].
    simpl in *. injection H as H. rewrite H in Hlink.
    rewrite andb_false_r in Hlink. discriminate.
  - repeat split; eapply comprehension_sublist; eassumption.
Qed.

(** The sample uploads, sorted.  The file [link_report.html] is in two
    groups: the HTML group takes every name that ends in [.html], the
    link group every name whose second component starts with [link]; and
    [readme.md] is in none. *)
Lemma sample_uploads_sorted :
  group_uploads sample_uploads
  = Some (FileGroups
            [Upload (txt "site/rtr1.html") [];
             Upload (txt "site/link_report.html") []]
            [Upload (txt "site/export_RTR1.log") []]
            [Upload (txt "site/notes.txt") []]
            [Upload (txt "site/link_status.log") [];
             Upload (txt "site/link_report.html") []]
            [Upload (txt "site/equipment_status.log") []]).
Proof. vm_compute. reflexivity. Qed.

Lemma groups_do_not_overlap_witness :
  (forall file,
      file ∈ [Upload (txt "site/export_RTR1.log") []] ->
      (file ∉ [Upload (txt "site/notes.txt") []])
      /\ (file ∉ [Upload (txt "site/link_status.log") [];
                   Upload (txt "site/link_report.html") []])
      /\ (file ∉ [Upload (txt "site/equipment_status.log") []])) /\
  (forall file,
      file ∈ [Upload (txt "site/notes.txt") []] ->
      (file ∉ [Upload (txt "site/link_status.log") [];
                Upload (txt "site/link_report.html") []])
      /\ (file ∉ [Upload (txt "site/equipment_status.log") []])) /\
  (forall file,
      file ∈ [Upload (txt "site/link_status.log") [];
               Upload (txt "site/link_report.html") []] ->
      file ∉ [Upload (txt "site/equipment_status.log") []]) /\
  sublist [Upload (txt "site/rtr1.html") [];
           Upload (txt "site/link_report.html") []] sample_uploads /\
  sublist [Upload (txt "site/export_RTR1.log") []] sample_uploads /\
  sublist [Upload (txt "site/notes.txt") []] sample_uploads /\
  sublist [Upload (txt "site/link_status.log") [];
           Upload (txt "site/link_report.html") []] sample_uploads /\
  sublist [Upload (txt "site/equipment_status.log") []] sample_uploads.
Proof.
  apply (groups_do_not_overlap sample_uploads
           (FileGroups
              [Upload (txt "site/rtr1.html") [];
               Upload (txt "site/link_report.html") []]
              [Upload (txt "site/export_RTR1.log") []]
              [Upload (txt "site/notes.txt") []]
              [Upload (txt "site/link_status.log") [];
               Upload (txt "site/link_report.html") []]
              [Upload (txt "site/equipment_status.log") []])).
  vm_compute. reflexivity.
Defined.

(** X23.  What decides between the feeds and the plain logs is the second
    component of the uploaded name: the file's own name for a file picked
    directly in the uploaded folder, the name of the sub-folder for a file
    further down.  When that component starts with [equipment] the file
    is an equipment-status file; when it starts with [link], a link-status
    file; otherwise it is a syslog or text file if its name ends in
    [.log] or [.txt]. *)
Theorem second_component_decides_the_group
    (file : upload) (top second tail : str) :
  filename file = top ++ ch "/" :: second ++ tail ->
  ch "/" ∉ top -> ch "/" ∉ second ->
  tail = [] \/ (exists rest, tail = ch "/" :: rest) ->
  is_equipment file = Some (startswith (txt "equipment") second) /\
  is_link file
  = Some (startswith (txt "link") second
          && negb (startswith (txt "equipment") second)) /\
  is_log file
  = Some (endswith (txt ".log") (filename file)
          && negb (startswith (txt "link") second)
          && negb (startswith (txt "equipment") second)) /\
  is_text file
  = Some (endswith (txt ".txt") (filename file)
          && negb (startswith (txt "link") second)
          && negb (startswith (txt "equipment") second)).
Proof.
  intros Hname Htop Hsecond Htail.
  assert (second_segment file = Some second) as Hseg
    by (eapply second_segment_of_path; eauto).
  unfold is_equipment, is_link, is_log, is_text, neither_feed.
  rewrite Hseg. simpl.
  repeat split; destruct (endswith _ _); simpl; try reflexivity;
    now rewrite <- andb_assoc.
Qed.

Lemma second_component_decides_the_group_witness :
  is_equipment sample_nested_upload
  = Some (startswith (txt "equipment") (txt "data")) /\
  is_link sample_nested_upload
  = Some (startswith (txt "link") (txt "data")
          && negb (startswith (txt "equipment") (txt "data"))) /\
  is_log sample_nested_upload
  = Some (endswith (txt ".log") (filename sample_nested_upload)
          && negb (startswith (txt "link") (txt "data"))
          && negb (startswith (txt "equipment") (txt "data"))) /\
  is_text sample_nested_upload
  = Some (endswith (txt ".txt") (filename sample_nested_upload)
          && negb (startswith (txt "link") (txt "data"))
          && negb (startswith (txt "equipment") (txt "data"))).
Proof.
  apply (second_component_decides_the_group sample_nested_upload
           (txt "site") (txt "data") (ch "/" :: txt "link_status.log")).
  - reflexivity.
  - apply (bool_decide_unpack _). vm_compute. exact I.
  - apply (bool_decide_unpack _). vm_compute. exact I.
  - right. eauto.
Defined.

(** ** Line ends *)

Lemma universal_newlines_no_cr (s : str) :
  (13%N ∉ universal_newlines s)
  /\ forall c, 13%N ∉ universal_newlines (c :: s).
Proof.
  induction s as [|d r [IH1 IH2]].
  - split; [apply not_elem_of_nil|]. intros c. simpl.
    destruct (N.eqb_spec c 13) as [->|Hc].
    + apply not_elem_of_cons. split; [done|apply not_elem_of_nil].
    + apply not_elem_of_cons. split; [congruence|apply not_elem_of_nil].
  - split; [apply IH2|]. intros c.
    cbn [universal_newlines]. destruct (N.eqb_spec c 13) as [->|Hc].
    + destruct (d =? 10)%N; apply not_elem_of_cons; split; try done.
      apply IH2.
    + apply not_elem_of_cons. split; [congruence|apply IH2].
Qed.

(** X24.  The text the reader returns holds no carriage return, whatever
    the encoding that decoded it: the file is opened in text mode, where
    [\r\n] and a lone [\r] are read as [\n].  A file with Windows line
    ends is read as the same text as its Unix twin. *)
Theorem reader_returns_no_carriage_return
    (fs : storage) (file_path : str) (encodings : list encoding) (content : str) :
  read_file_with_multiple_encodings fs file_path encodings = Ok content ->
  13%N ∉ content.
Proof.
  intros (i & e & _ & Hopen & _)%read_first_success.
  unfold open_read in Hopen.
  destruct (fs !! file_path) as [bs|]; [|discriminate].
  destruct (decode e bs) as [t|]; [|discriminate].
  injection Hopen as <-. apply universal_newlines_no_cr.
Qed.

Lemma reader_returns_no_carriage_return_witness :
  13%N ∉ [97; 10; 98; 10]%N.
Proof.
  apply (reader_returns_no_carriage_return
           {[ txt "/tmp/crlf.log" := [Byte.x61; Byte.x0d; Byte.x0a; Byte.x62; Byte.x0d] ]}
           (txt "/tmp/crlf.log") default_encodings [97; 10; 98; 10]%N).
  vm_compute. reflexivity.
Defined.

(** ** The sheet of the link-status driver *)



(** ** Flattening *)

Lemma dict_set_keys (k : str) (v : value) (d : dict) :
  is_Some (dict_get k d) -> (dict_set k v d).*1 = d.*1.
Proof.
  induction d as [|[k0 v0] d IH]; simpl; [intros [? [=]]|].
  destruct (decide (k0 = k)) as [->|Hne]; [done|].
  intros H. change (k0 :: (dict_set k v d).*1 = k0 :: d.*1). f_equal. auto.
Qed.

(** X26.  [flatten_items] on a list of dictionaries returns as many
    dictionaries, each with the keys of its item in the same order and
    the same values, except under [equipmentItems], where the value has
    become its [str()] text. *)
Theorem flatten_items_changes_one_value
    (py_str : value -> str) (items : list dict) :
  exists flat : list dict,
    flatten_items py_str (VList (VDict <$> items)) = Ok (VDict <$> flat) /\
    length flat = length items /\
    forall i item,
      items !! i = Some item ->
      exists flat_item,
        flat !! i = Some flat_item /\
        flat_item.*1 = item.*1 /\
        (forall key, key <> txt "equipmentItems" ->
                     dict_get key flat_item = dict_get key item) /\
        (forall nested,
            dict_get (txt "equipmentItems") item = Some nested ->
            dict_get (txt "equipmentItems") flat_item
            = Some (VStr (py_str nested))).
Proof.
  exists (flattened py_str <$> items).
  split; [apply flatten_items_dicts|]. split; [apply length_fmap|].
  intros i item Hi. exists (flattened py_str item).
  split; [now rewrite list_lookup_fmap, Hi|].
  unfold flattened.
  destruct (dict_get (txt "equipmentItems") item) as [nested|] eqn:Hn.
  - split; [apply dict_set_keys; rewrite Hn; eauto|].
    split.
    + intros key Hkey. now apply dict_get_set_ne.
    + intros ? [= <-]. apply dict_get_set_eq.
  - split; [done|]. split; [done|]. intros ? [=].
Qed.

